(** * Noise stimulus frame generators of mozaik and their test harness

    A shallow embedding of [tests/stimuli/vision/test_topographica_based.py]:
    the frame generators [reference_frames] of [TestSparseNoise] and
    [TestDenseNoise], the comparison loop [frames_equal], [check_frames],
    and the stimulus classes of [mozaik.stimuli.vision.topographica_based]
    the tests exercise.

    The code is Python 2: [g.next()], [range] over the quotient of two
    integers, and [/] between integers is floor division. *)

From Stdlib Require Import ZArith Lia.
From Stdlib Require Import Floats.PrimFloat Floats.SpecFloat Floats.FloatOps Floats.FloatAxioms.
From stdpp Require Import base option list.

Set Warnings "-inexact-float".

(** ** Exceptions and results

    A Python call returns, raises, or (a [while True] that never reaches
    its [yield]) does not come back. *)

Inductive exn :=
  | StopIteration
  | AssertionError
  | ValueError
  | ZeroDivisionError
  | OverflowError
  | NotImplementedError.

Inductive result (A : Type) :=
  | Ret (a : A)
  | Raise (e : exn)
  | Diverge.
Arguments Ret {A} a.
Arguments Raise {A} e.
Arguments Diverge {A}.

#[global] Instance result_ret : MRet result := fun _ a => Ret a.
#[global] Instance result_bind : MBind result := fun _ _ k m =>
  match m with
  | Ret a => k a
  | Raise e => Raise e
  | Diverge => Diverge
  end.
#[global] Instance result_fmap : FMap result := fun _ _ f m =>
  match m with
  | Ret a => Ret (f a)
  | Raise e => Raise e
  | Diverge => Diverge
  end.

(** ** Python numbers

    The parameters the tests pass are Python [int]s ([10], [-1], [2]) and
    [float]s ([5.0], [0.9], [1.4]); floats are IEEE binary64. *)

Inductive pynum :=
  | PyInt (z : Z)
  | PyFloat (f : float).

(** [float(z)]: the nearest binary64, ties to even; an [int] beyond the
    range of binary64 raises [OverflowError]. *)
Definition float_of_Z (z : Z) : result float :=
  let f := SF2Prim (binary_normalize prec emax z 0 false) in
  if is_infinity f then Raise OverflowError else Ret f.

Definition py_float (x : pynum) : result float :=
  match x with
  | PyInt z => float_of_Z z
  | PyFloat f => Ret f
  end.

(** [x * y]: exact on two [int]s, otherwise both operands become floats. *)
Definition py_mul (x y : pynum) : result pynum :=
  match x, y with
  | PyInt a, PyInt b => Ret (PyInt (a * b))
  | _, _ =>
      a ← py_float x; b ← py_float y; Ret (PyFloat (a * b)%float)
  end.

(** [x / y] of Python 2: floor division on two [int]s, float division
    otherwise; a zero divisor raises [ZeroDivisionError] in both cases. *)
Definition py_div (x y : pynum) : result pynum :=
  match x, y with
  | PyInt a, PyInt b =>
      if (b =? 0)%Z then Raise ZeroDivisionError else Ret (PyInt (a / b))
  | _, _ =>
      a ← py_float x; b ← py_float y;
      if (b =? 0)%float then Raise ZeroDivisionError
      else Ret (PyFloat (a / b)%float)
  end.

(** True division, used where a quotient is meant as a real number. *)
Definition py_truediv (x y : pynum) : result float :=
  a ← py_float x; b ← py_float y;
  if (b =? 0)%float then Raise ZeroDivisionError else Ret (a / b)%float.

(** A float is integral when it is finite and has no fractional bits. *)
Definition float_is_integer (f : float) : bool :=
  match Prim2SF f with
  | S754_zero _ => true
  | S754_finite _ m e => (0 <=? e)%Z || (Z.land (Z.pos m) (Z.ones (- e)) =? 0)%Z
  | S754_infinity _ | S754_nan => false
  end.

(** The integer an integral float stands for. *)
Definition float_to_Z (f : float) : Z :=
  match Prim2SF f with
  | S754_finite s m e =>
      let a := if (0 <=? e)%Z then Z.shiftl (Z.pos m) e else Z.shiftr (Z.pos m) (- e) in
      if s then (- a)%Z else a
  | _ => 0%Z
  end.

Definition py_is_integer (x : pynum) : bool :=
  match x with
  | PyInt _ => true
  | PyFloat f => float_is_integer f
  end.

(** [0 < x]; false on a NaN. *)
Definition py_is_positive (x : pynum) : bool :=
  match x with
  | PyInt z => (0 <? z)%Z
  | PyFloat f => (0 <? f)%float
  end.

(** ** Arrays, the object store and frames

    A frame is the tuple [(array, [0])] a generator yields. The first
    component is a reference to a numpy array object: yielding passes the
    reference on and copies nothing, so the store of array objects is
    explicit and a frame holds an index into it. Arrays are never written
    after they are created, so the store only grows. *)

Definition ndarray := list (list float).
Definition heap := list ndarray.
Definition ref := nat.

Definition alloc (h : heap) (a : ndarray) : ref * heap := (length h, h ++ [a]).

Definition Frame : Type := ref * list Z.

(** [numpy.array_equal]: same shape and [==] on every pair of elements
    (IEEE equality: a NaN differs from itself, [0.0 == -0.0]). *)
Fixpoint all2 {A} (p : A → A → bool) (l1 l2 : list A) : bool :=
  match l1, l2 with
  | [], [] => true
  | x :: l1, y :: l2 => p x y && all2 p l1 l2
  | _, _ => false
  end.

Definition array_equal (a b : ndarray) : bool := all2 (all2 PrimFloat.eqb) a b.

Definition nan_free (a : ndarray) : bool :=
  forallb (forallb (fun x => (x =? x)%float)) a.

(** [f0[1] == f1[1]] on the metadata lists. *)
Definition meta_equal (m0 m1 : list Z) : bool := bool_decide (m0 = m1).

(** The test [numpy.array_equal(f0[0], f1[0]) and f0[1] == f1[1]] of
    [frames_equal], with both arrays read from the store. *)
Definition frame_equal (h : heap) (f0 f1 : Frame) : bool :=
  match h !! f0.1, h !! f1.1 with
  | Some a0, Some a1 => array_equal a0 a1 && meta_equal f0.2 f1.2
  | _, _ => false
  end.

(** ** Generators

    A Python generator object is its suspended state; [g.next()] resumes
    it against the store and yields a frame, raises, or never returns. *)

Class Generator (G : Type) := next : G → heap → result (Frame * G * heap).

(** A list iterator: yields its elements, then raises [StopIteration]. *)
#[global] Instance list_iterator : Generator (list Frame) := fun l h =>
  match l with
  | [] => Raise StopIteration
  | f :: l => Ret (f, l, h)
  end.

(** [pull n g]: [n] calls of [g.next()] in a row. *)
Fixpoint pull `{Generator G} (n : nat) (g : G) (h : heap)
  : result (list Frame * G * heap) :=
  match n with
  | O => Ret ([], g, h)
  | S n =>
      '(f, g, h) ← next g h;
      '(fs, g, h) ← pull n g h;
      Ret (f :: fs, g, h)
  end.

(** ** The comparison loop of the tester

<<
    def frames_equal(self, g0, g1, num_frames):
        for i in range(num_frames):
            f0 = g0.next()
            f1 = g1.next()
            if not (numpy.array_equal(f0[0], f1[0]) and f0[1] == f1[1]):
                return False
        return True
>>
    The result carries the generators and the store as the loop leaves
    them. *)

Fixpoint frames_equal `{Generator G0, Generator G1}
    (g0 : G0) (g1 : G1) (num_frames : nat) (h : heap)
  : result (bool * G0 * G1 * heap) :=
  match num_frames with
  | O => Ret (true, g0, g1, h)
  | S n =>
      '(f0, g0, h) ← next g0 h;
      '(f1, g1, h) ← next g1 h;
      if negb (frame_equal h f0 f1) then Ret (false, g0, g1, h)
      else frames_equal g0 g1 n h
  end.

(** What the contract of the harness describes: [n] rounds, each pulling
    one frame from either stream. A round is the two frames and the store
    they are compared in. *)
Definition round : Type := Frame * Frame * heap.

Definition round_equal (r : round) : bool := frame_equal r.2 r.1.1 r.1.2.

Fixpoint lockstep `{Generator G0, Generator G1}
    (n : nat) (g0 : G0) (g1 : G1) (h : heap)
  : result (list round * G0 * G1 * heap) :=
  match n with
  | O => Ret ([], g0, g1, h)
  | S n =>
      '(f0, g0, h) ← next g0 h;
      '(f1, g1, h) ← next g1 h;
      '(rs, g0, g1, h') ← lockstep n g0 g1 h;
      Ret ((f0, f1, h) :: rs, g0, g1, h')
  end.

(** ** The pattern library

    [imagen.random.SparseNoise] and [imagen.random.DenseNoise] and numpy's
    [RandomState] are not part of the repository. A pattern generator is
    the record of keyword arguments it was created with; calling it draws
    from its random state, which it advances in place, and hands back a
    newly created array. A call is taken to return for every record of
    arguments, and to depend on nothing but the arguments and the random
    state. *)

Inductive variant := Sparse | Dense.

(** What can be called for an array: the two pattern generators the
    tests create, with their keyword arguments, and the sampler of the
    stimulus classes.

    Modelled from the spec: [FieldSampler], the Random Field Sampler
    (absent from the sources) with the arguments of its contract
    "sample(geometry, grid_density, scale, offset, random_source)": the
    geometry is the stimulus geometry of the data model ([size_x],
    [size_y], [location_x], [location_y], [density]); the sparse variant
    carries its grid flag, the dense one has none. Nothing relates its
    arrays to those of the two pattern generators. *)
Inductive pattern :=
  | SparseNoisePattern
      (grid_density : pynum) (grid : bool) (offset scale : pynum)
      (bounds_radius xdensity ydensity : pynum)
  | DenseNoisePattern
      (grid_density offset scale bounds_radius xdensity ydensity : pynum)
  | FieldSampler
      (kind : variant) (grid : option bool)
      (size_x size_y location_x location_y density : pynum)
      (grid_density : float) (scale offset : pynum).

Class Imagen := {
  RandomState : Type;
  (** [numpy.random.RandomState(seed=s)] *)
  RandomState_seed : Z → RandomState;
  (** [aux()] for a pattern generator [aux] *)
  pattern_call : pattern → RandomState → ndarray * RandomState;
}.

(** The arrays of the first [n] calls of a pattern generator, and the
    random state they leave behind. *)
Fixpoint draws `{Imagen} (aux : pattern) (rng : RandomState) (n : nat) : list ndarray :=
  match n with
  | O => []
  | S n => let '(a, rng) := pattern_call aux rng in a :: draws aux rng n
  end.

Fixpoint rng_after `{Imagen} (aux : pattern) (rng : RandomState) (n : nat) : RandomState :=
  match n with
  | O => rng
  | S n => rng_after aux (pattern_call aux rng).2 n
  end.

(** ** Parameters of the tests *)

(** The keyword arguments of [reference_frames], [topo_frames] and
    [check_frames]. The dense tests have no [grid] argument: the dense
    functions do not read the field. *)
Record test_params := {
  grid_size : pynum;
  size_x : pynum;
  grid : bool;
  background_luminance : pynum;
  density : pynum;
}.

(** [default_topo] and [default_noise], the defaults of the arguments. *)
Definition default_topo_frame_duration : Z := 1.
Definition default_topo_size_y : pynum := PyFloat 11.
Definition default_topo_location_x : pynum := PyFloat 0.
Definition default_topo_location_y : pynum := PyFloat 0.
Definition default_noise_time_per_image : Z := 2.

Definition default_params : test_params := {|
  grid_size := PyInt 11;
  size_x := PyFloat 11;
  grid := false;
  background_luminance := PyFloat 50;
  density := PyFloat 10;
|}.

(** The attributes of the tester the functions read through [self]. *)
Record tester := {
  num_frames : nat;
  experiment_seed : Z;
}.

Definition TestNoise : tester := {| num_frames := 100; experiment_seed := 0 |}.

(** [sparse_noise_params], first two rows. *)
Definition sparse_noise_params_0 : test_params := {|
  grid_size := PyInt 10; size_x := PyInt 10; grid := true;
  background_luminance := PyInt 50; density := PyFloat 5;
|}.

(** ** The reference generators

<<
    def reference_frames(self, grid_size=..., size_x=..., grid=...,
                         background_luminance=..., density=...):
        time_per_image = self.default_noise["time_per_image"]
        frame_duration = self.default_topo["frame_duration"]
        aux = imagen.random.SparseNoise(
            grid_density=grid_size * 1.0 / size_x,
            grid=grid,
            offset=0,
            scale=2 * background_luminance,
            bounds=BoundingBox(radius=size_x / 2),
            xdensity=density,
            ydensity=density,
            random_generator=numpy.random.RandomState(seed=self.experiment_seed),
        )
        while True:
            aux2 = aux()
            for i in range(time_per_image / frame_duration):
                yield (aux2, [0])
>>
    and the same for [DenseNoise], without the [grid] argument. *)

(** The keyword arguments, evaluated left to right. *)
Definition reference_pattern (v : variant) (p : test_params) : result pattern :=
  g ← py_mul (grid_size p) (PyFloat 1);
  grid_density ← py_div g (size_x p);
  scale ← py_mul (PyInt 2) (background_luminance p);
  radius ← py_div (size_x p) (PyInt 2);
  Ret match v with
      | Sparse => SparseNoisePattern grid_density (grid p) (PyInt 0) scale
                    radius (density p) (density p)
      | Dense => DenseNoisePattern grid_density (PyInt 0) scale
                    radius (density p) (density p)
      end.

(** [range(time_per_image / frame_duration)]: both are [int]s. *)
Definition frames_per_image : nat :=
  Z.to_nat (default_noise_time_per_image / default_topo_frame_duration).

Section Reference.
Context `{Imagen}.

(** The generator object: created and not yet started (calling a
    generator function runs none of its body), or suspended at the
    [yield] in iteration [i] of the [for] loop. *)
Inductive reference_frames_state :=
  | Created (self : tester) (v : variant) (p : test_params)
  | Suspended (aux : pattern) (rng : RandomState) (aux2 : ref) (i : nat).

Definition reference_frames (self : tester) (v : variant) (p : test_params)
  : reference_frames_state := Created self v p.

(** From the head of [while True]: [aux2 = aux()], then the first
    [yield] of the [for] loop; with an empty [range] the [while] loop
    never yields. *)
Definition reference_sample (aux : pattern) (rng : RandomState) (h : heap)
  : result (Frame * reference_frames_state * heap) :=
  let '(a, rng) := pattern_call aux rng in
  let '(aux2, h) := alloc h a in
  match frames_per_image with
  | O => Diverge
  | S _ => Ret ((aux2, [0%Z]), Suspended aux rng aux2 0, h)
  end.

#[global] Instance reference_frames_next : Generator reference_frames_state :=
  fun g h =>
    match g with
    | Created self v p =>
        aux ← reference_pattern v p;
        reference_sample aux (RandomState_seed (experiment_seed self)) h
    | Suspended aux rng aux2 i =>
        if decide (S i < frames_per_image)
        then Ret ((aux2, [0%Z]), Suspended aux rng aux2 (S i), h)
        else reference_sample aux rng h
    end.
End Reference.

(** ** The stimulus classes under test

    The tests construct the classes of
    [mozaik/stimuli/vision/topographica_based.py] and read [_frames] and
    [transparent]; the module itself is modelled from the specification. *)

Module topo.

(** The keyword arguments [topo_frames] passes to [topo.SparseNoise]
    and [topo.DenseNoise]. *)
Record params := {
  grid_size : pynum;
  grid : bool;
  background_luminance : pynum;
  density : pynum;
  size_x : pynum;
  size_y : pynum;
  location_x : pynum;
  location_y : pynum;
  time_per_image : pynum;
  frame_duration : pynum;
  experiment_seed : Z;
}.

(** Modelled from the spec: the base class
    [TopographicaBasedVisualStimulus] (absent from the sources). "The
    [transparent] property of the base visual-stimulus abstraction is
    always [false] for this family": the constructor of the base class
    clears the flag for every stimulus built through it. *)
Record TopographicaBasedVisualStimulus := {
  tb_size_x : pynum;
  tb_size_y : pynum;
  tb_location_x : pynum;
  tb_location_y : pynum;
  transparent : bool;
}.

Definition TopographicaBasedVisualStimulus_init
    (size_x size_y location_x location_y : pynum)
  : TopographicaBasedVisualStimulus := {|
  tb_size_x := size_x;
  tb_size_y := size_y;
  tb_location_x := location_x;
  tb_location_y := location_y;
  transparent := false;
|}.

(** Modelled from the spec: the timing check of the constructor
    (absent from the sources). [time_per_image] must be an exact integer
    multiple of [frame_duration]; the quotient is the number of frames a
    sampled field is held. *)
Definition is_integer_multiple (t d : pynum) : bool :=
  match t, d with
  | PyInt a, PyInt b => negb (b =? 0)%Z && (a mod b =? 0)%Z
  | _, _ =>
      match py_truediv t d with
      | Ret q => float_is_integer q
      | _ => false
      end
  end.

Definition timing_quotient (t d : pynum) : nat :=
  match t, d with
  | PyInt a, PyInt b => Z.to_nat (a / b)
  | _, _ =>
      match py_truediv t d with
      | Ret q => Z.to_nat (float_to_Z q)
      | _ => O
      end
  end.

(** Modelled from the spec: the arguments the generator hands to the
    Random Field Sampler (absent from the sources): the geometry of the
    stimulus, [grid_density = grid_size / size_x] as a real quotient,
    [scale = 2 * background_luminance] and [offset = 0]. The dense
    variant does not expose the [grid] flag. *)
Definition sampler_pattern (v : variant) (p : params) : result pattern :=
  grid_density ← py_truediv (grid_size p) (size_x p);
  scale ← py_mul (PyInt 2) (background_luminance p);
  Ret (FieldSampler v
         match v with Sparse => Some (grid p) | Dense => None end
         (size_x p) (size_y p) (location_x p) (location_y p) (density p)
         grid_density scale (PyInt 0)).

Section Noise.
Context `{Imagen}.

(** Modelled from the spec: the state of the frame stream (absent from
    the sources), the held field and the "frames remaining before next
    resample". *)
Inductive hold :=
  | NotStarted
  | Holding (field : ref) (remaining : nat).

(** Modelled from the spec: a [SparseNoise] or [DenseNoise] object
    (absent from the sources): the base stimulus, the pattern generator
    with its random state, and the hold state. *)
Record NoiseStimulus := {
  base : TopographicaBasedVisualStimulus;
  kind : variant;
  aux : pattern;
  frames_per_image : nat;
  rng : RandomState;
  held : hold;
}.

(** Modelled from the spec: the constructors [SparseNoise]
    and [DenseNoise] (absent from the sources). All
    validation is done here, before any frame is asked for: the timing
    check (an [AssertionError], the spec's InvalidConfiguration), then
    the grid size, which must be a positive integer, and the geometry
    and density, which must be positive (a [ValueError], the spec's
    ConfigurationError). *)
Definition Noise (v : variant) (p : params) : result NoiseStimulus :=
  if negb (is_integer_multiple (time_per_image p) (frame_duration p))
  then Raise AssertionError
  else if negb (py_is_positive (grid_size p) && py_is_integer (grid_size p))
  then Raise ValueError
  else if negb (py_is_positive (size_x p) && py_is_positive (size_y p)
                && py_is_positive (density p))
  then Raise ValueError
  else
    aux ← sampler_pattern v p;
    Ret {|
      base := TopographicaBasedVisualStimulus_init
                (size_x p) (size_y p) (location_x p) (location_y p);
      kind := v;
      aux := aux;
      frames_per_image := timing_quotient (time_per_image p) (frame_duration p);
      rng := RandomState_seed (experiment_seed p);
      held := NotStarted;
    |}.

Definition SparseNoise := Noise Sparse.
Definition DenseNoise := Noise Dense.

(** Modelled from the spec: [_frames], the frame stream of a noise
    stimulus (absent from the sources). "On the first call and every
    time the countdown reaches zero, invoke the Random Field Sampler
    to obtain a new held field and reset the countdown; otherwise
    return the previously held field (same array reference/metadata)
    without consuming new randomness." Every frame carries [[0]]. *)
Definition next_frame (s : NoiseStimulus) (h : heap)
  : result (Frame * NoiseStimulus * heap) :=
  match held s with
  | Holding field (S remaining) =>
      Ret ((field, [0%Z]),
           {| base := base s; kind := kind s; aux := aux s;
              frames_per_image := frames_per_image s; rng := rng s;
              held := Holding field remaining |}, h)
  | _ =>
      let '(a, rng') := pattern_call (aux s) (rng s) in
      let '(field, h) := alloc h a in
      Ret ((field, [0%Z]),
           {| base := base s; kind := kind s; aux := aux s;
              frames_per_image := frames_per_image s; rng := rng';
              held := Holding field (frames_per_image s - 1) |}, h)
  end.

#[global] Instance _frames : Generator NoiseStimulus := next_frame.
End Noise.

Arguments NoiseStimulus {_}.

End topo.

(** [DummyTBVS], the subclass the tests define to have a concrete
    [frames]: the constructor is inherited and [frames] returns [[]]. *)
Definition DummyTBVS (size_x size_y location_x location_y : pynum)
  : topo.TopographicaBasedVisualStimulus :=
  topo.TopographicaBasedVisualStimulus_init size_x size_y location_x location_y.

Definition DummyTBVS_frames (t : topo.TopographicaBasedVisualStimulus) : list Frame := [].

(** [test_nontransparent]: [assert not t.transparent]. *)
Definition test_nontransparent : result unit :=
  let t := DummyTBVS (PyInt 1) (PyInt 1) (PyFloat 0) (PyFloat 0) in
  if negb (topo.transparent t) then Ret () else Raise AssertionError.

Section Harness.
Context `{Imagen}.

(** [topo_frames]: build the stimulus from the test's arguments and the
    defaults, and return its frame stream. The dense tests pass
    [grid=False]. *)
Definition topo_frames (self : tester) (v : variant) (p : test_params)
  : result topo.NoiseStimulus :=
  topo.Noise v {|
    topo.grid_size := grid_size p;
    topo.grid := match v with Sparse => grid p | Dense => false end;
    topo.background_luminance := background_luminance p;
    topo.density := density p;
    topo.size_x := size_x p;
    topo.size_y := default_topo_size_y;
    topo.location_x := default_topo_location_x;
    topo.location_y := default_topo_location_y;
    topo.time_per_image := PyInt default_noise_time_per_image;
    topo.frame_duration := PyInt default_topo_frame_duration;
    topo.experiment_seed := experiment_seed self;
  |}.

(** [check_frames]: [rf = self.reference_frames(params)],
    [tf = self.topo_frames(params)],
    [assert self.frames_equal(rf, tf, self.num_frames)]. *)
Definition check_frames (self : tester) (v : variant) (p : test_params) (h : heap)
  : result heap :=
  let rf := reference_frames self v p in
  tf ← topo_frames self v p;
  '(b, rf, tf, h) ← frames_equal rf (tf : topo.NoiseStimulus) (num_frames self) h;
  if (b : bool) then Ret h else Raise AssertionError.
End Harness.

(** ** A small pattern library to run the definitions on

    A linear congruential generator stands for [RandomState]; a call
    returns a one-row array with two cells of 0 or 1 drawn from it around
    a cell of 0.5. *)

Definition lcg_next (r : Z) : Z := ((r * 1103515245 + 12345) mod 2147483648)%Z.

Definition lcg_cell (r : Z) : float :=
  if Z.odd (r / 65536) then 1%float else 0%float.

#[local] Instance lcg_imagen : Imagen := {|
  RandomState := Z;
  RandomState_seed := fun s => s;
  pattern_call := fun _ r =>
    let r1 := lcg_next r in
    let r2 := lcg_next r1 in
    ([[lcg_cell r1; 0.5%float; lcg_cell r2]], r2);
|}.

(** Two list iterators over a store of two different arrays: the first
    frames differ, the second frames are the same. *)
Definition two_arrays : heap := [[[1%float]]; [[2%float]]].
Definition stream_a : list Frame := [(0, [0%Z]); (0, [0%Z])].
Definition stream_b : list Frame := [(1, [0%Z]); (0, [0%Z])].

(** The frames of [k] held images in a row, the first array at [base]:
    each reference twice, as [frames_per_image] is two. *)
Fixpoint windows (base : ref) (k : nat) : list Frame :=
  match k with
  | O => []
  | S k => (base, [0%Z]) :: (base, [0%Z]) :: windows (S base) k
  end.

(** The array of call number [k] (from zero) of a pattern generator. *)
Definition draw `{Imagen} (aux : pattern) (rng : RandomState) (k : nat) : ndarray :=
  (pattern_call aux (rng_after aux rng k)).1.

(** The random state a started reference generator holds. *)
Definition reference_rng `{Imagen} (g : reference_frames_state) : option RandomState :=
  match g with
  | Created _ _ _ => None
  | Suspended _ rng _ _ => Some rng
  end.

(** Two binary64 numbers are equal as numbers, which is what [==] says
    of them: they are the same value and not a NaN, or they are two zeros
    of either sign. This is not sameness of the bits: a NaN is not equal
    to itself, and [0.0] is equal to [-0.0]. *)
Definition numbers_equal (x y : float) : Prop :=
  (x = y ∧ x ≠ nan) ∨
  ((x = 0%float ∨ x = (-0)%float) ∧ (y = 0%float ∨ y = (-0)%float)).

(** Two arrays are equal element for element: the same shape and every
    pair of elements equal as numbers. *)
Definition arrays_equal_as_numbers (a b : ndarray) : Prop :=
  Forall2 (Forall2 numbers_equal) a b.

(** The two frames of a round match: both arrays exist in the store and
    are equal element for element, and the metadata lists are equal by
    value. *)
Definition round_matches (r : round) : Prop :=
  ∃ a0 a1, r.2 !! r.1.1.1 = Some a0 ∧ r.2 !! r.1.2.1 = Some a1 ∧
           arrays_equal_as_numbers a0 a1 ∧ r.1.1.2 = r.1.2.2.


(** A round whose two frames hold arrays of the same contents, with the
    same metadata; [P] says more about the contents. *)
Definition same_contents (P : ndarray → Prop) (r : round) : Prop :=
  ∃ a, r.2 !! r.1.1.1 = Some a ∧ r.2 !! r.1.2.1 = Some a ∧ r.1.1.2 = r.1.2.2 ∧ P a.

(** * Properties *)

(** ** Numbers *)

Example float_of_Z_10 : float_of_Z 10 = Ret 10%float.
Proof. reflexivity. Qed.
Example py_div_int : py_div (PyInt 15) (PyInt 2) = Ret (PyInt 7).
Proof. reflexivity. Qed.
Example py_div_float : py_div (PyFloat 11) (PyInt 2) = Ret (PyFloat 5.5).
Proof. reflexivity. Qed.
Example py_grid_density :
  (x ← py_mul (PyInt 10) (PyFloat 1); py_div x (PyInt 10)) = Ret (PyFloat 1).
Proof. reflexivity. Qed.
Example float_is_integer_2 : float_is_integer 2 = true.
Proof. reflexivity. Qed.
Example float_to_Z_3 : float_to_Z 3 = 3%Z.
Proof. reflexivity. Qed.

Example py_timing_quotient :
  py_truediv (PyFloat 1.4) (PyFloat 1.5) = Ret 0.93333333333333324%float.
Proof. reflexivity. Qed.

(** ** Results *)

Ltac unbind :=
  unfold mbind, result_bind, mret, result_ret, fmap, result_fmap in *.

Lemma bind_Ret {A B} (m : result A) (k : A → result B) (b : B) :
  m ≫= k = Ret b → ∃ a, m = Ret a ∧ k a = Ret b.
Proof. unbind. destruct m; [eauto | discriminate..]. Qed.

(** ** Arrays *)

Lemma all2_refl {A} (p : A → A → bool) (l : list A) :
  forallb (fun x => p x x) l = true → all2 p l l = true.
Proof.
  induction l as [|x l IH]; simpl; [done|].
  intros [Hx Hl]%andb_prop. by rewrite Hx, IH.
Qed.

Lemma array_equal_refl (a : ndarray) : nan_free a = true → array_equal a a = true.
Proof.
  unfold nan_free, array_equal. induction a as [|row a IH]; simpl; [done|].
  intros [Hrow Ha]%andb_prop. rewrite all2_refl by done. by rewrite IH.
Qed.

Lemma all2_Forall2 {A} (p : A → A → bool) (l1 l2 : list A) :
  all2 p l1 l2 = true ↔ Forall2 (λ x y, p x y = true) l1 l2.
Proof.
  revert l2. induction l1 as [|x l1 IH]; intros [|y l2]; simpl.
  - split; [constructor | done].
  - split; [done | inversion 1].
  - split; [done | inversion 1].
  - rewrite andb_true_iff, IH. split.
    + intros [? ?]. by constructor.
    + inversion 1; subst. done.
Qed.

Lemma Prim2SF_eq (x y : float) : Prim2SF x = Prim2SF y → x = y.
Proof. intros E. by rewrite <- (SF2Prim_Prim2SF x), E, SF2Prim_Prim2SF. Qed.

Ltac is_zero_of E :=
  first [ left; apply Prim2SF_eq; rewrite E; reflexivity
        | right; apply Prim2SF_eq; rewrite E; reflexivity ].

Ltac same_not_nan Ex Ey :=
  left; split;
  [ apply Prim2SF_eq; congruence
  | let Hx := fresh in intros Hx; rewrite Hx in Ex; vm_compute in Ex; discriminate Ex ].

(** [==] on two floats, spelled out. *)
Lemma float_eqb_spec (x y : float) : (x =? y)%float = true ↔ numbers_equal x y.
Proof.
  rewrite FloatAxioms.eqb_spec. unfold SFeqb, numbers_equal. split.
  - destruct (Prim2SF x) as [sx|sx| |sx mx ex] eqn:Ex,
             (Prim2SF y) as [sy|sy| |sy my ey] eqn:Ey;
      try destruct sx; try destruct sy; simpl; try (intros ?; discriminate).
    all: try (intros _; right; split; [is_zero_of Ex | is_zero_of Ey]).
    all: try (intros _; same_not_nan Ex Ey).
    all: destruct (Z.compare ex ey) eqn:Ee; try (intros ?; discriminate);
      apply Z.compare_eq in Ee; subst;
      rewrite Pos.compare_cont_spec; simpl;
      destruct (Pos.compare mx my) eqn:Em; try (intros ?; discriminate);
      apply Pos.compare_eq in Em; subst; intros _; same_not_nan Ex Ey.
  - intros [[<- Hnan] | [[-> | ->] [-> | ->]]]; [|reflexivity..].
    destruct (Prim2SF x) as [sx|sx| |sx mx ex] eqn:Ex; simpl.
    + done.
    + by destruct sx.
    + destruct Hnan. apply Prim2SF_eq. by rewrite Ex.
    + rewrite Z.compare_refl, Pos.compare_cont_spec, Pos.compare_refl.
      by destruct sx.
Qed.

Lemma array_equal_spec (a b : ndarray) :
  array_equal a b = true ↔ arrays_equal_as_numbers a b.
Proof.
  unfold array_equal, arrays_equal_as_numbers. rewrite all2_Forall2.
  split; intros Hab; (eapply Forall2_impl; [exact Hab|]);
    intros r1 r2; rewrite all2_Forall2; intros Hr;
    (eapply Forall2_impl; [exact Hr|]); intros x y; by rewrite float_eqb_spec.
Qed.

Lemma round_equal_spec (r : round) : round_equal r = true ↔ round_matches r.
Proof.
  destruct r as [[[r0 m0] [r1 m1]] h]. unfold round_equal, round_matches, frame_equal.
  simpl. split.
  - destruct (h !! r0) as [a0|]; [|done]. destruct (h !! r1) as [a1|]; [|done].
    intros [Ha Hm%bool_decide_eq_true]%andb_prop. exists a0, a1.
    by rewrite <- array_equal_spec.
  - intros (a0 & a1 & -> & -> & Ha%array_equal_spec & Hm).
    rewrite Ha. unfold meta_equal. by rewrite bool_decide_eq_true_2.
Qed.

Lemma lookup_round_equal_true (rs : list round) (i : nat) :
  round_equal <$> rs !! i = Some true ↔ ∃ r, rs !! i = Some r ∧ round_matches r.
Proof.
  destruct (rs !! i) as [r|]; simpl.
  - split.
    + intros [= Hr%round_equal_spec]. eauto.
    + intros (r' & [= <-] & Hr%round_equal_spec). by rewrite Hr.
  - split; [done | by intros (r & ? & _)].
Qed.

Lemma lookup_round_equal_false (rs : list round) (i : nat) :
  round_equal <$> rs !! i = Some false ↔ ∃ r, rs !! i = Some r ∧ ¬ round_matches r.
Proof.
  destruct (rs !! i) as [r|]; simpl.
  - split.
    + intros [= Hr]. exists r. split; [done|].
      intros Hm%round_equal_spec. congruence.
    + intros (r' & [= <-] & Hr). f_equal. apply not_true_is_false.
      by rewrite round_equal_spec.
  - split; [done | by intros (r & ? & _)].
Qed.

Lemma frame_equal_lookup (h : heap) (f0 f1 : Frame) (a0 a1 : ndarray) :
  h !! f0.1 = Some a0 → h !! f1.1 = Some a1 →
  frame_equal h f0 f1 = array_equal a0 a1 && meta_equal f0.2 f1.2.
Proof. intros H0 H1. unfold frame_equal. by rewrite H0, H1. Qed.

Lemma frame_equal_same_array (h : heap) (r0 r1 : ref) (a : ndarray) (m : list Z) :
  h !! r0 = Some a → h !! r1 = Some a → nan_free a = true →
  frame_equal h (r0, m) (r1, m) = true.
Proof.
  intros H0 H1 Ha. unfold frame_equal, meta_equal. simpl. rewrite H0, H1.
  rewrite array_equal_refl by done. by rewrite bool_decide_eq_true_2.
Qed.

(** ** The comparison loop *)

Section HarnessFacts.
Context `{Generator G0, Generator G1}.

Lemma lockstep_S n (g0 : G0) (g1 : G1) (h : heap) :
  lockstep (S n) g0 g1 h =
    match next g0 h with
    | Ret (f0, g0, h) =>
        match next g1 h with
        | Ret (f1, g1, h) =>
            match lockstep n g0 g1 h with
            | Ret (rs, g0, g1, h') => Ret ((f0, f1, h) :: rs, g0, g1, h')
            | Raise e => Raise e
            | Diverge => Diverge
            end
        | Raise e => Raise e
        | Diverge => Diverge
        end
    | Raise e => Raise e
    | Diverge => Diverge
    end.
Proof.
  simpl. unbind. destruct (next g0 h) as [[[f0 g0a] ha]| |]; [|done..].
  destruct (next g1 ha) as [[[f1 g1a] hb]| |]; [|done..].
  by destruct (lockstep n g0a g1a hb) as [[[[rs1 g0b] g1b] hc]| |].
Qed.

Lemma frames_equal_S n (g0 : G0) (g1 : G1) (h : heap) :
  frames_equal g0 g1 (S n) h =
    match next g0 h with
    | Ret (f0, g0, h) =>
        match next g1 h with
        | Ret (f1, g1, h) =>
            if frame_equal h f0 f1 then frames_equal g0 g1 n h
            else Ret (false, g0, g1, h)
        | Raise e => Raise e
        | Diverge => Diverge
        end
    | Raise e => Raise e
    | Diverge => Diverge
    end.
Proof.
  simpl. unbind. destruct (next g0 h) as [[[f0 g0a] ha]| |]; [|done..].
  destruct (next g1 ha) as [[[f1 g1a] hb]| |]; [|done..].
  by destruct (frame_equal hb f0 f1).
Qed.

Lemma lockstep_length n (g0 : G0) (g1 : G1) (h : heap) rs g0' g1' h' :
  lockstep n g0 g1 h = Ret (rs, g0', g1', h') → length rs = n.
Proof.
  revert g0 g1 h rs g0' g1' h'. induction n as [|n IH]; intros * E.
  - by inversion E.
  - rewrite lockstep_S in E.
    destruct (next g0 h) as [[[f0 g0a] ha]| |]; [|done..].
    destruct (next g1 ha) as [[[f1 g1a] hb]| |]; [|done..].
    destruct (lockstep n g0a g1a hb) as [[[[rs1 g0b] g1b] hc]| |] eqn:E1; [|done..].
    inversion E; subst. simpl. f_equal. eauto.
Qed.

(** The loop against [n] full rounds: the answer is the conjunction of
    the comparisons; when it is [True] the streams are left as after
    [n] rounds, and when it is [False] they are left as after the first
    round that differs. *)
Lemma frames_equal_rounds n (g0 : G0) (g1 : G1) (h : heap) rs g0n g1n hn :
  lockstep n g0 g1 h = Ret (rs, g0n, g1n, hn) →
  ∃ b g0' g1' h',
    frames_equal g0 g1 n h = Ret (b, g0', g1', h') ∧
    (b = true ↔ ∀ i, i < n → round_equal <$> rs !! i = Some true) ∧
    (b = true → (g0', g1', h') = (g0n, g1n, hn)) ∧
    (b = false → ∃ i rs',
        i < n ∧ (∀ j, j < i → round_equal <$> rs !! j = Some true) ∧
        round_equal <$> rs !! i = Some false ∧
        lockstep (S i) g0 g1 h = Ret (rs', g0', g1', h')).
Proof.
  revert g0 g1 h rs g0n g1n hn. induction n as [|n IH]; intros * E.
  - simpl in *. inversion E; subst. exists true, g0n, g1n, hn.
    repeat split; intros; [lia | done | done..].
  - rewrite lockstep_S in E. rewrite frames_equal_S.
    destruct (next g0 h) as [[[f0 g0a] ha]| |] eqn:N0; [|done..].
    destruct (next g1 ha) as [[[f1 g1a] hb]| |] eqn:N1; [|done..].
    destruct (lockstep n g0a g1a hb) as [[[[rs1 g0b] g1b] hc]| |] eqn:E1; [|done..].
    inversion E; subst; clear E.
    destruct (frame_equal hb f0 f1) eqn:Eq.
    + destruct (IH _ _ _ _ _ _ _ E1) as (b & g0' & g1' & h' & Hf & Hb & Ht & Hfl).
      exists b, g0', g1', h'. split; [done|]. split; [|split]; [|done|].
      * rewrite Hb. split.
        -- intros Hall [|i] Hi; [by (simpl; unfold round_equal; simpl; rewrite Eq)|].
           simpl. apply Hall. lia.
        -- intros Hall i Hi. apply (Hall (S i)). lia.
      * intros Hbf. destruct (Hfl Hbf) as (i & rs' & Hi & Hpre & Hat & Hl).
        exists (S i), ((f0, f1, hb) :: rs'). split; [lia|]. split; [|split; [done|]].
        -- intros [|j] Hj; [by (simpl; unfold round_equal; simpl; rewrite Eq)|].
           simpl. apply Hpre. lia.
        -- rewrite lockstep_S, N0, N1, Hl. done.
    + exists false, g0a, g1a, hb. split; [done|]. split; [|split]; [|done|].
      * split; [done|]. intros Hall. specialize (Hall 0 ltac:(lia)).
        simpl in Hall. unfold round_equal in Hall. simpl in Hall. congruence.
      * intros _. exists 0, [(f0, f1, hb)]. split; [lia|]. split; [intros; lia|].
        split; [by (simpl; unfold round_equal; simpl; rewrite Eq)|].
        rewrite lockstep_S, N0, N1. done.
Qed.

(** When every round compares equal the loop answers [True]. *)
Lemma frames_equal_true n (g0 : G0) (g1 : G1) (h : heap) rs g0n g1n hn :
  lockstep n g0 g1 h = Ret (rs, g0n, g1n, hn) →
  Forall (λ r, round_equal r = true) rs →
  frames_equal g0 g1 n h = Ret (true, g0n, g1n, hn).
Proof.
  intros E Hall. pose proof (lockstep_length _ _ _ _ _ _ _ _ E) as Hlen.
  destruct (frames_equal_rounds _ _ _ _ _ _ _ _ E) as (b & g0' & g1' & h' & Hf & Hb & Ht & _).
  assert (b = true) as ->.
  { apply Hb. intros i Hi. destruct (lookup_lt_is_Some_2 rs i ltac:(lia)) as [r Hr].
    rewrite Hr. simpl. f_equal. by eapply (Forall_lookup_1 _ _ _ _ Hall). }
  rewrite Hf. specialize (Ht eq_refl). by inversion Ht.
Qed.
End HarnessFacts.

(** ** Pulling frames *)

Lemma pull_S `{Generator G} n (g : G) (h : heap) :
  pull (S n) g h =
    match next g h with
    | Ret (f, g, h) =>
        match pull n g h with
        | Ret (fs, g, h) => Ret (f :: fs, g, h)
        | Raise e => Raise e
        | Diverge => Diverge
        end
    | Raise e => Raise e
    | Diverge => Diverge
    end.
Proof.
  simpl. unbind. destruct (next g h) as [[[f ga] ha]| |]; [|done..].
  by destruct (pull n ga ha) as [[[fs gb] hb]| |].
Qed.

Lemma pull_app `{Generator G} n m (g : G) (h : heap) fs g' h' fs' g'' h'' :
  pull n g h = Ret (fs, g', h') →
  pull m g' h' = Ret (fs', g'', h'') →
  pull (n + m) g h = Ret (fs ++ fs', g'', h'').
Proof.
  revert g h fs. induction n as [|n IH]; intros g h fs En Em.
  - inversion En; subst. done.
  - rewrite pull_S in En. change (S n + m) with (S (n + m)). rewrite pull_S.
    destruct (next g h) as [[[f ga] ha]| |]; [|done..].
    destruct (pull n ga ha) as [[[fs1 gb] hb]| |] eqn:E1; [|done..].
    inversion En; subst. by rewrite (IH _ _ _ E1 Em).
Qed.

Lemma pull_length `{Generator G} n (g : G) (h : heap) fs g' h' :
  pull n g h = Ret (fs, g', h') → length fs = n.
Proof.
  revert g h fs. induction n as [|n IH]; intros g h fs E.
  - by inversion E.
  - rewrite pull_S in E. destruct (next g h) as [[[f ga] ha]| |]; [|done..].
    destruct (pull n ga ha) as [[[fs1 gb] hb]| |] eqn:E1; [|done..].
    inversion E; subst. simpl. f_equal. eauto.
Qed.

(** ** Held images *)

Lemma windows_length base k : length (windows base k) = 2 * k.
Proof. revert base. induction k as [|k IH]; intros base; simpl; [done|]. rewrite IH. lia. Qed.

Lemma lookup_cons_S {A} (x : A) (l : list A) i : (x :: l) !! S i = l !! i.
Proof. reflexivity. Qed.

Lemma windows_lookup base k i :
  i < k →
  windows base k !! (2 * i) = Some (base + i, [0%Z]) ∧
  windows base k !! (2 * i + 1) = Some (base + i, [0%Z]).
Proof.
  revert base i. induction k as [|k IH]; intros base i Hi; [lia|].
  change (windows base (S k)) with ((base, [0%Z]) :: (base, [0%Z]) :: windows (S base) k).
  destruct i as [|i].
  - rewrite Nat.add_0_r. done.
  - replace (2 * S i) with (S (S (2 * i))) by lia.
    replace (S (S (2 * i)) + 1) with (S (S (2 * i + 1))) by lia.
    rewrite !lookup_cons_S. destruct (IH (S base) i ltac:(lia)) as [E0 E1].
    replace (base + S i) with (S base + i) by lia. done.
Qed.

Lemma windows_meta base k f : f ∈ windows base k → f.2 = [0%Z].
Proof.
  revert base. induction k as [|k IH]; intros base; simpl.
  - by intros ?%elem_of_nil.
  - rewrite !elem_of_cons. intros [->|[->|Hf]]; eauto.
Qed.

Lemma windows_app base k k' :
  windows base (k + k') = windows base k ++ windows (base + k) k'.
Proof.
  revert base. induction k as [|k IH]; intros base; simpl.
  - by rewrite Nat.add_0_r.
  - rewrite IH. by replace (S base + k) with (base + S k) by lia.
Qed.

Section ReferenceFacts.
Context `{Imagen}.

Lemma frames_per_image_eq : frames_per_image = 2.
Proof. reflexivity. Qed.

Lemma reference_sample_eq aux rng h :
  reference_sample aux rng h =
    Ret ((length h, [0%Z]),
         Suspended aux (pattern_call aux rng).2 (length h) 0,
         h ++ [(pattern_call aux rng).1]).
Proof. unfold reference_sample. by destruct (pattern_call aux rng). Qed.

Lemma next_Created self v p h :
  next (Created self v p) h =
    aux ← reference_pattern v p;
    reference_sample aux (RandomState_seed (experiment_seed self)) h.
Proof. reflexivity. Qed.

Lemma next_Suspended_0 aux rng aux2 h :
  next (Suspended aux rng aux2 0) h = Ret ((aux2, [0%Z]), Suspended aux rng aux2 1, h).
Proof. reflexivity. Qed.

Lemma next_Suspended_1 aux rng aux2 h :
  next (Suspended aux rng aux2 1) h = reference_sample aux rng h.
Proof. reflexivity. Qed.

(** One held image: from the end of a [for] loop, two calls of [next]
    return the same new reference and draw once. *)
Lemma pull_window aux rng aux2 h :
  pull 2 (Suspended aux rng aux2 1) h =
    Ret (windows (length h) 1,
         Suspended aux (pattern_call aux rng).2 (length h) 1,
         h ++ [(pattern_call aux rng).1]).
Proof.
  rewrite pull_S, next_Suspended_1, reference_sample_eq.
  rewrite pull_S, next_Suspended_0. done.
Qed.

Lemma draws_S_r aux rng k :
  draws aux rng (S k) = draws aux rng k ++ [(pattern_call aux (rng_after aux rng k)).1].
Proof.
  revert rng. induction k as [|k IH]; intros rng.
  - simpl. by destruct (pattern_call aux rng).
  - change (draws aux rng (S (S k))) with
      (let '(a, rng') := pattern_call aux rng in a :: draws aux rng' (S k)).
    destruct (pattern_call aux rng) as [a rng'] eqn:E. rewrite IH. simpl.
    by rewrite E.
Qed.

Lemma draws_length aux rng k : length (draws aux rng k) = k.
Proof.
  revert rng. induction k as [|k IH]; intros rng; simpl; [done|].
  destruct (pattern_call aux rng). simpl. by rewrite IH.
Qed.

Lemma rng_after_S_r aux rng k :
  rng_after aux rng (S k) = (pattern_call aux (rng_after aux rng k)).2.
Proof. revert rng. induction k as [|k IH]; intros rng; [done|]. simpl. by rewrite <- IH. Qed.

(** [k] held images from the end of a [for] loop: [2 * k] frames, [k]
    draws, [k] new arrays. *)
Lemma pull_windows aux rng aux2 h k :
  pull (2 * k) (Suspended aux rng aux2 1) h =
    Ret (windows (length h) k,
         Suspended aux (rng_after aux rng k)
           (match k with O => aux2 | S k => length h + k end) 1,
         h ++ draws aux rng k).
Proof.
  induction k as [|k IH].
  - simpl. by rewrite app_nil_r.
  - replace (2 * S k) with (2 * k + 2) by lia.
    erewrite pull_app; [|exact IH|apply pull_window].
    rewrite length_app, draws_length, draws_S_r, rng_after_S_r.
    replace (S k) with (k + 1) at 1 by lia. rewrite windows_app, app_assoc. done.
Qed.
End ReferenceFacts.

Lemma pull_take `{Generator G} n m (g : G) (h : heap) fs g'' h'' :
  pull (n + m) g h = Ret (fs, g'', h'') →
  ∃ g' h', pull n g h = Ret (take n fs, g', h') ∧
           pull m g' h' = Ret (drop n fs, g'', h'').
Proof.
  revert g h fs. induction n as [|n IH]; intros g h fs E.
  - exists g, h. done.
  - change (S n + m) with (S (n + m)) in E. rewrite pull_S in E. rewrite pull_S.
    destruct (next g h) as [[[f ga] ha]| |]; [|done..].
    destruct (pull (n + m) ga ha) as [[[fs1 gb] hb]| |] eqn:E1; [|done..].
    inversion E; subst. destruct (IH _ _ _ E1) as (g' & h' & E2 & E3).
    exists g', h'. rewrite E2. done.
Qed.

Lemma windows_lookup_div2 base k i :
  i < 2 * k → windows base k !! i = Some (base + Nat.div2 i, [0%Z]).
Proof.
  intros Hi. pose proof (Nat.div2_odd i) as Hodd.
  destruct (Nat.odd i); simpl in Hodd.
  - rewrite Hodd at 1. apply windows_lookup. lia.
  - rewrite Hodd at 1. rewrite Nat.add_0_r. apply windows_lookup. lia.
Qed.

Section ReferenceStreams.
Context `{Imagen}.

Lemma pull_Created self v p aux h n :
  reference_pattern v p = Ret aux →
  pull (S n) (Created self v p) h =
  pull (S n) (Suspended aux (RandomState_seed (experiment_seed self)) 0 1) h.
Proof.
  intros E. rewrite !pull_S, next_Created, next_Suspended_1, E. done.
Qed.

(** The first [n] frames of a reference generator whose arguments
    evaluate: the generator yields all of them. *)
Lemma pull_reference_frames self v p aux h n :
  reference_pattern v p = Ret aux →
  ∃ g' h', pull n (reference_frames self v p) h =
             Ret (take n (windows (length h) n), g', h').
Proof.
  intros E. destruct n as [|n]; [by eexists _, _|].
  unfold reference_frames. rewrite (pull_Created _ _ _ _ _ _ E).
  pose proof (pull_windows aux (RandomState_seed (experiment_seed self)) 0 h (S n)) as Hw.
  replace (2 * S n) with (S n + S n) in Hw by lia.
  destruct (pull_take _ _ _ _ _ _ _ Hw) as (g' & h' & E1 & _). eauto.
Qed.
End ReferenceStreams.

(** ** Two streams side by side *)

Lemma same_contents_round_equal (r : round) :
  same_contents (λ a, nan_free a = true) r → round_equal r = true.
Proof.
  destruct r as [[[r0 m0] [r1 m1]] h]. intros (a & H0 & H1 & Hm & Ha).
  simpl in *. subst m1. unfold round_equal. simpl.
  by apply (frame_equal_same_array h r0 r1 a).
Qed.

Section ReferencePair.
Context `{Imagen}.
Variable P : ndarray → Prop.
Variable aux : pattern.
Hypothesis P_draw : ∀ rng, P (pattern_call aux rng).1.

Lemma next_Suspended_ge rng aux2 i h :
  1 ≤ i → next (Suspended aux rng aux2 i) h = reference_sample aux rng h.
Proof.
  intros Hi. unfold next, reference_frames_next.
  rewrite decide_False; [done|]. rewrite frames_per_image_eq. lia.
Qed.

(** Two reference generators of the same pattern, with equal random
    states and at the same iteration of the [for] loop, holding two
    arrays of the same contents: every round yields arrays of the same
    contents, whichever objects hold them. *)
Lemma lockstep_suspended n rng r0 r1 i a h :
  h !! r0 = Some a → h !! r1 = Some a → P a →
  ∃ rs s0 s1 h',
    lockstep n (Suspended aux rng r0 i) (Suspended aux rng r1 i) h = Ret (rs, s0, s1, h') ∧
    Forall (same_contents P) rs.
Proof.
  revert rng r0 r1 i a h. induction n as [|n IH]; intros rng r0 r1 i a h H0 H1 Ha.
  - eexists [], _, _, _. split; [done|]. constructor.
  - rewrite lockstep_S. destruct i as [|i].
    + rewrite !next_Suspended_0.
      destruct (IH rng r0 r1 1 a h H0 H1 Ha) as (rs & s0 & s1 & h' & E & Hall).
      rewrite E. eexists _, _, _, _. split; [done|]. constructor; [|done].
      exists a. done.
    + rewrite next_Suspended_ge, reference_sample_eq by lia. cbv beta iota.
      rewrite next_Suspended_ge, reference_sample_eq by lia. cbv beta iota.
      set (a' := (pattern_call aux rng).1). set (rng' := (pattern_call aux rng).2).
      assert (((h ++ [a']) ++ [a']) !! length h = Some a') as E0.
      { rewrite lookup_app_l by (rewrite length_app; simpl; lia).
        by rewrite list_lookup_middle. }
      assert (((h ++ [a']) ++ [a']) !! length (h ++ [a']) = Some a') as E1.
      { by rewrite list_lookup_middle. }
      destruct (IH rng' (length h) (length (h ++ [a'])) 0 a' _ E0 E1 (P_draw rng))
        as (rs & s0 & s1 & h' & E & Hall).
      rewrite E. eexists _, _, _, _. split; [done|]. constructor; [|done].
      exists a'. split_and!; [done..|apply P_draw].
Qed.

(** The same from two generators that have not started. *)
Lemma lockstep_created n self v p h :
  reference_pattern v p = Ret aux →
  ∃ rs s0 s1 h',
    lockstep n (reference_frames self v p) (reference_frames self v p) h =
      Ret (rs, s0, s1, h') ∧
    Forall (same_contents P) rs.
Proof.
  intros E. destruct n as [|n].
  - eexists [], _, _, _. split; [done|]. constructor.
  - set (rng := RandomState_seed (experiment_seed self)).
    unfold reference_frames. rewrite lockstep_S.
    rewrite next_Created, E. unbind. fold rng. rewrite reference_sample_eq.
    rewrite next_Created, E. unbind. fold rng. rewrite reference_sample_eq.
    set (a' := (pattern_call aux rng).1). set (rng' := (pattern_call aux rng).2).
    assert (((h ++ [a']) ++ [a']) !! length h = Some a') as E0.
    { rewrite lookup_app_l by (rewrite length_app; simpl; lia).
      by rewrite list_lookup_middle. }
    assert (((h ++ [a']) ++ [a']) !! length (h ++ [a']) = Some a') as E1.
    { by rewrite list_lookup_middle. }
    destruct (lockstep_suspended n rng' (length h) (length (h ++ [a'])) 0 a' _ E0 E1 (P_draw rng))
      as (rs & s0 & s1 & h' & El & Hall).
    rewrite El. eexists _, _, _, _. split; [done|]. constructor; [|done].
    exists a'. split_and!; [done..|apply P_draw].
Qed.
End ReferencePair.

(** * The tested properties *)

(** C2. Two reference generators made from the same parameters and the
    same seed, each with a random state of its own, yield the same frames
    for every prefix length [n]: in every round the two arrays have the
    same contents (in two different objects) and the metadata lists are
    equal; when the sampled arrays hold no NaN, [frames_equal] returns
    [True] on them. The arguments of the pattern generator must evaluate
    ([size_x] is not zero). *)
Theorem reference_frames_deterministic `{Imagen}
    (self : tester) (v : variant) (p : test_params) (aux : pattern) (n : nat) (h : heap) :
  reference_pattern v p = Ret aux →
  ∃ rs g0 g1 h',
    lockstep n (reference_frames self v p) (reference_frames self v p) h =
      Ret (rs, g0, g1, h') ∧
    length rs = n ∧
    Forall (same_contents (λ _, True)) rs ∧
    ((∀ rng, nan_free (pattern_call aux rng).1 = true) →
     frames_equal (reference_frames self v p) (reference_frames self v p) n h =
       Ret (true, g0, g1, h')).
Proof.
  intros Ep.
  destruct (lockstep_created (λ _, True) aux (λ _, I) n self v p h Ep)
    as (rs & s0 & s1 & h' & El & Hall).
  exists rs, s0, s1, h'.
  split_and!; [done|exact (lockstep_length _ _ _ _ _ _ _ _ El)|done|]. intros Hnan.
  destruct (lockstep_created (λ a, nan_free a = true) aux Hnan n self v p h Ep)
    as (rs' & s0' & s1' & h'' & El' & Hall').
  rewrite El in El'. inversion El'; subst.
  apply (frames_equal_true _ _ _ _ _ _ _ _ El).
  eapply Forall_impl; [exact Hall'|]. apply same_contents_round_equal.
Qed.

Lemma reference_frames_deterministic_witness :
  ∃ rs g0 g1 h',
    lockstep (G0 := reference_frames_state (H := lcg_imagen)) 7
      (reference_frames TestNoise Dense default_params)
      (reference_frames TestNoise Dense default_params) [] = Ret (rs, g0, g1, h') ∧
    length rs = 7 ∧
    Forall (same_contents (λ _, True)) rs ∧
    ((∀ rng, nan_free (pattern_call
        (DenseNoisePattern (PyFloat 1) (PyInt 0) (PyFloat 100) (PyFloat 5.5)
           (PyFloat 10) (PyFloat 10)) rng).1 = true) →
     frames_equal (reference_frames TestNoise Dense default_params)
       (reference_frames TestNoise Dense default_params) 7 [] = Ret (true, g0, g1, h')).
Proof.
  apply (reference_frames_deterministic (H := lcg_imagen) TestNoise Dense default_params).
  reflexivity.
Defined.

(** C5. A reference generator holds every sampled field for two frames
    ([time_per_image = 2], [frame_duration = 1]). For every [k], the
    frames at indices [2k] and [2k+1] are the same frame, the call that
    yields frame [2k+1] draws nothing and creates no array, and frame
    [2k+2] is a new array holding the next draw: it differs from frame
    [2k+1] whenever the two draws differ. *)
Theorem reference_frames_hold `{Imagen}
    (self : tester) (v : variant) (p : test_params) (aux : pattern) (k : nat) (h : heap) :
  reference_pattern v p = Ret aux →
  let g := reference_frames self v p in
  let seed := RandomState_seed (experiment_seed self) in
  ∃ pre f f' g1 g2 g3 h1 h3,
    length pre = 2 * k ∧
    pull (2 * k + 1) g h = Ret (pre ++ [f], g1, h1) ∧
    pull (2 * k + 2) g h = Ret (pre ++ [f; f], g2, h1) ∧
    pull (2 * k + 3) g h = Ret (pre ++ [f; f; f'], g3, h3) ∧
    reference_rng g1 = Some (rng_after aux seed (k + 1)) ∧
    reference_rng g2 = Some (rng_after aux seed (k + 1)) ∧
    reference_rng g3 = Some (rng_after aux seed (k + 2)) ∧
    f.1 ≠ f'.1 ∧
    h3 !! f.1 = Some (draw aux seed k) ∧
    h3 !! f'.1 = Some (draw aux seed (k + 1)) ∧
    (array_equal (draw aux seed k) (draw aux seed (k + 1)) = false →
     frame_equal h3 f f' = false).
Proof.
  intros Ep g seed. subst g. unfold reference_frames.
  set (B := Suspended aux seed 0 1).
  pose proof (pull_windows aux seed 0 h k) as Hw. fold B in Hw.
  set (Bk := Suspended aux (rng_after aux seed k)
               match k with 0 => 0 | S k => length h + k end 1) in Hw.
  set (hk := h ++ draws aux seed k) in Hw.
  set (a := draw aux seed k). set (a' := draw aux seed (k + 1)).
  set (f := (length hk, [0%Z]) : Frame). set (f' := (S (length hk), [0%Z]) : Frame).
  assert (pull 1 Bk hk = Ret ([f], Suspended aux (rng_after aux seed (k + 1)) (length hk) 0,
                              hk ++ [a])) as E1.
  { rewrite pull_S. unfold Bk. rewrite next_Suspended_1, reference_sample_eq. simpl.
    replace (k + 1) with (S k) by lia. by rewrite rng_after_S_r. }
  assert (pull 2 Bk hk = Ret ([f; f], Suspended aux (rng_after aux seed (k + 1)) (length hk) 1,
                              hk ++ [a])) as E2.
  { unfold Bk. rewrite pull_window. simpl.
    replace (k + 1) with (S k) by lia. by rewrite rng_after_S_r. }
  assert (pull 3 Bk hk = Ret ([f; f; f'],
                              Suspended aux (rng_after aux seed (k + 2)) (S (length hk)) 0,
                              (hk ++ [a]) ++ [a'])) as E3.
  { change 3 with (2 + 1). change [f; f; f'] with ([f; f] ++ [f']).
    eapply pull_app; [exact E2|].
    rewrite pull_S, next_Suspended_1, reference_sample_eq. simpl.
    rewrite length_app. simpl. replace (length hk + 1) with (S (length hk)) by lia.
    unfold f', a', draw. replace (k + 2) with (S (k + 1)) by lia.
    by rewrite rng_after_S_r. }
  assert (∀ m, pull (2 * k + S m) (Created self v p) h = pull (2 * k + S m) B h) as EC.
  { intros m. replace (2 * k + S m) with (S (2 * k + m)) by lia.
    apply pull_Created. done. }
  eexists (windows (length h) k), f, f', _, _, _, (hk ++ [a]), ((hk ++ [a]) ++ [a']).
  split; [apply windows_length|].
  split; [rewrite EC; by apply (pull_app _ _ _ _ _ _ _ _ _ _ Hw E1)|].
  split; [rewrite EC; by apply (pull_app _ _ _ _ _ _ _ _ _ _ Hw E2)|].
  split; [rewrite EC; by apply (pull_app _ _ _ _ _ _ _ _ _ _ Hw E3)|].
  assert (((hk ++ [a]) ++ [a']) !! f.1 = Some a) as Ef.
  { simpl. rewrite lookup_app_l by (rewrite length_app; simpl; lia).
    by rewrite list_lookup_middle. }
  assert (((hk ++ [a]) ++ [a']) !! f'.1 = Some a') as Ef'.
  { simpl. rewrite list_lookup_middle; [done|]. rewrite length_app. simpl. lia. }
  split_and!; [done..|simpl; lia|done|done|].
  intros Hne. by rewrite (frame_equal_lookup _ _ _ _ _ Ef Ef'), Hne.
Qed.

Lemma reference_frames_hold_witness :
  ∃ pre f f' g1 g2 g3 h1 h3,
    length pre = 2 * 0 ∧
    pull (G := reference_frames_state (H := lcg_imagen)) (2 * 0 + 1)
      (reference_frames TestNoise Sparse sparse_noise_params_0) [] = Ret (pre ++ [f], g1, h1) ∧
    pull (2 * 0 + 2) (reference_frames TestNoise Sparse sparse_noise_params_0) [] =
      Ret (pre ++ [f; f], g2, h1) ∧
    pull (2 * 0 + 3) (reference_frames TestNoise Sparse sparse_noise_params_0) [] =
      Ret (pre ++ [f; f; f'], g3, h3) ∧
    reference_rng g1 = Some (rng_after
      (SparseNoisePattern (PyFloat 1) true (PyInt 0) (PyInt 100) (PyInt 5) (PyFloat 5) (PyFloat 5))
      (RandomState_seed 0) (0 + 1)) ∧
    reference_rng g2 = Some (rng_after
      (SparseNoisePattern (PyFloat 1) true (PyInt 0) (PyInt 100) (PyInt 5) (PyFloat 5) (PyFloat 5))
      (RandomState_seed 0) (0 + 1)) ∧
    reference_rng g3 = Some (rng_after
      (SparseNoisePattern (PyFloat 1) true (PyInt 0) (PyInt 100) (PyInt 5) (PyFloat 5) (PyFloat 5))
      (RandomState_seed 0) (0 + 2)) ∧
    f.1 ≠ f'.1 ∧
    h3 !! f.1 = Some (draw
      (SparseNoisePattern (PyFloat 1) true (PyInt 0) (PyInt 100) (PyInt 5) (PyFloat 5) (PyFloat 5))
      (RandomState_seed 0) 0) ∧
    h3 !! f'.1 = Some (draw
      (SparseNoisePattern (PyFloat 1) true (PyInt 0) (PyInt 100) (PyInt 5) (PyFloat 5) (PyFloat 5))
      (RandomState_seed 0) (0 + 1)) ∧
    (array_equal
       (draw (SparseNoisePattern (PyFloat 1) true (PyInt 0) (PyInt 100) (PyInt 5) (PyFloat 5) (PyFloat 5))
          (RandomState_seed 0) 0)
       (draw (SparseNoisePattern (PyFloat 1) true (PyInt 0) (PyInt 100) (PyInt 5) (PyFloat 5) (PyFloat 5))
          (RandomState_seed 0) (0 + 1)) = false →
     frame_equal h3 f f' = false).
Proof.
  apply (reference_frames_hold (H := lcg_imagen) TestNoise Sparse sparse_noise_params_0
           _ 0 []).
  reflexivity.
Defined.

(** With the small library the first two draws differ (the second and
    the third are the same). *)
Example lcg_draws_differ :
  array_equal
    (draw (H := lcg_imagen)
       (SparseNoisePattern (PyFloat 1) true (PyInt 0) (PyInt 100) (PyInt 5) (PyFloat 5) (PyFloat 5)) 0%Z 0)
    (draw (H := lcg_imagen)
       (SparseNoisePattern (PyFloat 1) true (PyInt 0) (PyInt 100) (PyInt 5) (PyFloat 5) (PyFloat 5)) 0%Z 1) = false.
Proof. reflexivity. Qed.

(** C8. Every frame of a noise stimulus generator carries the metadata
    list [[0]], at every position of its stream: the first [n] frames of a
    reference generator (sparse or dense) whose arguments evaluate, and
    the first [n] frames of any stimulus object, for every [n]. *)
Theorem noise_frames_metadata `{Imagen}
    (self : tester) (v : variant) (p : test_params) (aux : pattern) (n : nat) (h : heap) :
  reference_pattern v p = Ret aux →
  (∃ fs g' h', pull n (reference_frames self v p) h = Ret (fs, g', h') ∧
               length fs = n ∧ Forall (λ f : Frame, f.2 = [0%Z]) fs) ∧
  (∀ t : topo.NoiseStimulus,
     ∃ fs t' h', pull n t h = Ret (fs, t', h') ∧
                 length fs = n ∧ Forall (λ f : Frame, f.2 = [0%Z]) fs).
Proof.
  intros Ep. split.
  - destruct (pull_reference_frames self v p aux h n Ep) as (g' & h' & E).
    eexists _, _, _. split; [exact E|]. split; [exact (pull_length _ _ _ _ _ _ E)|].
    apply Forall_forall. intros f Hf%elem_of_take. destruct Hf as (i & Hf & _).
    eapply windows_meta. by eapply list_elem_of_lookup_2.
  - revert h. induction n as [|n IH]; intros h t.
    + eexists [], _, _. split; [done|]. split; [done|]. constructor.
    + rewrite pull_S.
      assert (∃ r t1 h1, next t h = Ret ((r, [0%Z]), t1, h1)) as (r & t1 & h1 & ->).
      { unfold next, topo._frames, topo.next_frame.
        destruct (topo.held t) as [|field [|remaining]];
          try destruct (pattern_call (topo.aux t) (topo.rng t)); simpl; eauto. }
      destruct (IH h1 t1) as (fs & t' & h' & -> & Hlen & Hall).
      eexists _, _, _. split; [done|]. split; [simpl; by rewrite Hlen|].
      by constructor.
Qed.

Lemma noise_frames_metadata_witness :
  (∃ fs g' h',
     pull (G := reference_frames_state (H := lcg_imagen)) 5
       (reference_frames TestNoise Dense default_params) [] = Ret (fs, g', h') ∧
     length fs = 5 ∧ Forall (λ f : Frame, f.2 = [0%Z]) fs) ∧
  (∀ t : topo.NoiseStimulus (H := lcg_imagen),
     ∃ fs t' h', pull 5 t [] = Ret (fs, t', h') ∧
                 length fs = 5 ∧ Forall (λ f : Frame, f.2 = [0%Z]) fs).
Proof.
  apply (noise_frames_metadata (H := lcg_imagen) TestNoise Dense default_params
           (DenseNoisePattern (PyFloat 1) (PyInt 0) (PyFloat 100) (PyFloat 5.5)
              (PyFloat 10) (PyFloat 10)) 5 []).
  reflexivity.
Defined.




(** C6 as stated fails: on a mismatch in the first round the loop returns
    at once, with one frame pulled from each stream and not [n = 2]; the
    second frame of either stream is left unread. *)
Lemma frames_equal_returns_early :
  frames_equal stream_a stream_b 2 two_arrays =
    Ret (false, [(0, [0%Z])], [(0, [0%Z])], two_arrays) ∧
  lockstep 2 stream_a stream_b two_arrays =
    Ret ([((0, [0%Z]), (1, [0%Z]), two_arrays); ((0, [0%Z]), (0, [0%Z]), two_arrays)],
         [], [], two_arrays) ∧
  ¬ ∃ b h', frames_equal stream_a stream_b 2 two_arrays = Ret (b, [], [], h').
Proof.
  split; [reflexivity|]. split; [reflexivity|].
  intros (b & h' & E). discriminate E.
Qed.

(** The comparison is not bit for bit: a frame over an array with a NaN
    does not match a frame over the very same array, and an array of
    [0.0] matches an array of [-0.0], which is another array. *)
Example frames_equal_nan_array :
  frames_equal [(0, [0%Z])] [(0, [0%Z])] 1 [[[nan]]] = Ret (false, [], [], [[[nan]]]).
Proof. reflexivity. Qed.

Example frames_equal_signed_zeros :
  frames_equal [(0, [0%Z])] [(1, [0%Z])] 1 [[[0%float]]; [[(-0)%float]]] =
    Ret (true, [], [], [[[0%float]]; [[(-0)%float]]]) ∧
  ([[0%float]] : ndarray) ≠ [[(-0)%float]].
Proof.
  split; [reflexivity|]. intros E.
  assert (Prim2SF 0 = Prim2SF (-0)) as E' by congruence.
  vm_compute in E'. discriminate E'.
Qed.

(** C6, amended. On two streams that can deliver [n] frames each,
    [frames_equal] returns [True] exactly when in every one of the [n]
    rounds the two arrays have the same shape and are equal element for
    element as numbers (each pair the same value and not a NaN, or two
    zeros of either sign: the [==] of [numpy.array_equal], which is not
    sameness of the bits) and the metadata lists are equal by value,
    having pulled [n] frames from each stream; otherwise it returns
    [False] at the first round [i] that does not match, having pulled
    [i + 1] frames from each stream. *)
Theorem frames_equal_contract `{Generator G0, Generator G1}
    (n : nat) (g0 : G0) (g1 : G1) (h : heap) rs g0n g1n hn :
  lockstep n g0 g1 h = Ret (rs, g0n, g1n, hn) →
  ∃ b g0' g1' h',
    frames_equal g0 g1 n h = Ret (b, g0', g1', h') ∧
    (b = true ↔ ∀ i, i < n → ∃ r, rs !! i = Some r ∧ round_matches r) ∧
    (b = true → (g0', g1', h') = (g0n, g1n, hn)) ∧
    (b = false → ∃ i rs',
        i < n ∧ (∀ j, j < i → ∃ r, rs !! j = Some r ∧ round_matches r) ∧
        (∃ r, rs !! i = Some r ∧ ¬ round_matches r) ∧
        lockstep (S i) g0 g1 h = Ret (rs', g0', g1', h')).
Proof.
  intros E.
  destruct (frames_equal_rounds _ _ _ _ _ _ _ _ E) as (b & g0' & g1' & h' & Hf & Hb & Ht & Hfl).
  exists b, g0', g1', h'. split; [done|]. split; [|split; [done|]].
  - rewrite Hb. by setoid_rewrite lookup_round_equal_true.
  - intros Hbf. destruct (Hfl Hbf) as (i & rs' & Hi & Hpre & Hat & Hl).
    exists i, rs'. split; [done|]. split; [|split; [|done]].
    + intros j Hj. apply lookup_round_equal_true. by apply Hpre.
    + by apply lookup_round_equal_false.
Qed.

Lemma frames_equal_contract_witness :
  ∃ b g0' g1' h',
    frames_equal stream_a stream_b 2 two_arrays = Ret (b, g0', g1', h') ∧
    (b = true ↔ ∀ i, i < 2 →
       ∃ r, [((0, [0%Z]), (1, [0%Z]), two_arrays); ((0, [0%Z]), (0, [0%Z]), two_arrays)] !! i
            = Some r ∧ round_matches r) ∧
    (b = true → (g0', g1', h') = ([], [], two_arrays)) ∧
    (b = false → ∃ i rs',
        i < 2 ∧
        (∀ j, j < i →
           ∃ r, [((0, [0%Z]), (1, [0%Z]), two_arrays); ((0, [0%Z]), (0, [0%Z]), two_arrays)] !! j
                = Some r ∧ round_matches r) ∧
        (∃ r, [((0, [0%Z]), (1, [0%Z]), two_arrays); ((0, [0%Z]), (0, [0%Z]), two_arrays)] !! i
              = Some r ∧ ¬ round_matches r) ∧
        lockstep (S i) stream_a stream_b two_arrays = Ret (rs', g0', g1', h')).
Proof.
  apply (frames_equal_contract 2 stream_a stream_b two_arrays).
  reflexivity.
Defined.

(** C10. For [num_frames = 0] the loop body never runs: [frames_equal]
    returns [True] for any two streams and leaves both streams and the
    store as they were, even when a stream would raise or never yield. *)
Theorem frames_equal_zero `{Generator G0, Generator G1} (g0 : G0) (g1 : G1) (h : heap) :
  frames_equal g0 g1 0 h = Ret (true, g0, g1, h).
Proof. reflexivity. Qed.

(** C3. Constructing a noise stimulus with [time_per_image = 1.4] and
    [frame_duration = 1.5] raises [AssertionError] at construction, for
    the sparse and for the dense class and whatever the other arguments
    are: [1.4 / 1.5] is not an integer. *)
Theorem noise_timing_rejected `{Imagen}
    (grid_size : pynum) (grid : bool) (background_luminance density : pynum)
    (size_x size_y location_x location_y : pynum) (experiment_seed : Z) :
  let p := {|
    topo.grid_size := grid_size;
    topo.grid := grid;
    topo.background_luminance := background_luminance;
    topo.density := density;
    topo.size_x := size_x;
    topo.size_y := size_y;
    topo.location_x := location_x;
    topo.location_y := location_y;
    topo.time_per_image := PyFloat 1.4;
    topo.frame_duration := PyFloat 1.5;
    topo.experiment_seed := experiment_seed;
  |} in
  topo.is_integer_multiple (PyFloat 1.4) (PyFloat 1.5) = false ∧
  topo.SparseNoise p = Raise AssertionError ∧
  topo.DenseNoise p = Raise AssertionError.
Proof. intros p. split_and!; reflexivity. Qed.

(** The grid sizes [test_min_grid_size] tries. *)
Example bad_grid_sizes_invalid :
  Forall (λ g, py_is_positive g && py_is_integer g = false)
    [PyInt (-1); PyInt 0; PyFloat 0.9; PyFloat 0.9999999999].
Proof. repeat constructor. Qed.

(** C4. For each [grid_size] of [-1], [0], [0.9] and [0.9999999999] and
    for the sparse and the dense class, the constructor raises
    [ValueError]: [topo_frames], which only constructs the stimulus,
    raises it, so [check_frames] raises it before [frames_equal] asks
    either stream for a frame. The other arguments of the test are
    arbitrary; the timing is the default of the tests. *)
Theorem noise_grid_size_rejected `{Imagen}
    (self : tester) (v : variant)
    (size_x : pynum) (grid : bool) (background_luminance density : pynum) (h : heap) :
  Forall (λ g,
      let p := {| grid_size := g; size_x := size_x; grid := grid;
                  background_luminance := background_luminance;
                  density := density |} in
      topo_frames self v p = Raise ValueError ∧
      check_frames self v p h = Raise ValueError)
    [PyInt (-1); PyInt 0; PyFloat 0.9; PyFloat 0.9999999999].
Proof. repeat constructor. Qed.

(** C7. Every stimulus built through the constructor of
    [TopographicaBasedVisualStimulus] reports [transparent = False]: the
    [DummyTBVS] of the tests (so [test_nontransparent] passes), and every
    sparse or dense noise stimulus, when it is built and after any number
    of frames drawn from it. *)
Theorem topographica_stimuli_nontransparent `{Imagen}
    (v : variant) (p : topo.params) (t : topo.NoiseStimulus) (n : nat) (h : heap) :
  topo.Noise v p = Ret t →
  (∀ size_x size_y location_x location_y,
     topo.transparent (DummyTBVS size_x size_y location_x location_y) = false) ∧
  test_nontransparent = Ret () ∧
  topo.transparent (topo.base t) = false ∧
  ∃ fs t' h', pull n t h = Ret (fs, t', h') ∧
              topo.transparent (topo.base t') = false.
Proof.
  intros Et. split; [done|]. split; [done|].
  assert (topo.transparent (topo.base t) = false) as Ht.
  { unfold topo.Noise in Et.
    repeat (destruct (negb _); [discriminate|]).
    apply bind_Ret in Et as (aux & _ & Et). by inversion Et. }
  split; [done|]. clear Et. revert t h Ht. induction n as [|n IH]; intros t h Ht.
  - by eexists [], _, _.
  - rewrite pull_S.
    assert (∃ f t1 h1, next t h = Ret (f, t1, h1) ∧ topo.base t1 = topo.base t)
      as (f & t1 & h1 & -> & Hb).
    { unfold next, topo._frames, topo.next_frame.
      destruct (topo.held t) as [|field [|remaining]];
        try destruct (pattern_call (topo.aux t) (topo.rng t)); simpl; eauto. }
    destruct (IH t1 h1) as (fs & t' & h' & -> & Ht'); [by rewrite Hb|].
    by eexists _, _, _.
Qed.

Lemma topographica_stimuli_nontransparent_witness :
  ∃ t : topo.NoiseStimulus (H := lcg_imagen),
    topo_frames TestNoise Dense default_params = Ret t ∧
    (∀ size_x size_y location_x location_y,
       topo.transparent (DummyTBVS size_x size_y location_x location_y) = false) ∧
    test_nontransparent = Ret () ∧
    topo.transparent (topo.base t) = false ∧
    ∃ fs t' h', pull 4 t [] = Ret (fs, t', h') ∧
                topo.transparent (topo.base t') = false.
Proof.
  eexists. split; [reflexivity|].
  apply (topographica_stimuli_nontransparent (H := lcg_imagen) Dense
           {| topo.grid_size := PyInt 11; topo.grid := false;
              topo.background_luminance := PyFloat 50; topo.density := PyFloat 10;
              topo.size_x := PyFloat 11; topo.size_y := PyFloat 11;
              topo.location_x := PyFloat 0; topo.location_y := PyFloat 0;
              topo.time_per_image := PyInt 2; topo.frame_duration := PyInt 1;
              topo.experiment_seed := 0 |}).
  reflexivity.
Defined.

(** * Further properties of the comparison loop *)

Section LoopFacts.
Context `{Generator G0, Generator G1}.

(** Comparing [n + m] frames is comparing [n] frames and, when they
    match, [m] more from where the streams were left. *)
Lemma frames_equal_plus n m (g0 : G0) (g1 : G1) (h : heap) :
  frames_equal g0 g1 (n + m) h =
    match frames_equal g0 g1 n h with
    | Ret (true, g0', g1', h') => frames_equal g0' g1' m h'
    | r => r
    end.
Proof.
  revert g0 g1 h. induction n as [|n IH]; intros g0 g1 h; [done|].
  change (S n + m) with (S (n + m)). rewrite !frames_equal_S.
  destruct (next g0 h) as [[[f0 g0a] ha]| |]; [|done..].
  destruct (next g1 ha) as [[[f1 g1a] hb]| |]; [|done..].
  destruct (frame_equal hb f0 f1); [apply IH | done].
Qed.
End LoopFacts.

(** X1. [frames_equal] composes: comparing the first [n + m] frames gives
    what comparing the first [n] frames gives when that is [False] or an
    exception, and otherwise what comparing [m] more frames gives, started
    from the streams and the store as the first [n] rounds left them. *)
Theorem frames_equal_compose `{Generator G0, Generator G1}
    (n m : nat) (g0 : G0) (g1 : G1) (h : heap) :
  frames_equal g0 g1 (n + m) h =
    match frames_equal g0 g1 n h with
    | Ret (true, g0', g1', h') => frames_equal g0' g1' m h'
    | r => r
    end.
Proof. apply frames_equal_plus. Qed.

(** X2. A mismatch is final: when [frames_equal] returns [False] for [n]
    frames it returns [False] for every larger number of frames, and
    leaves the streams and the store in the same state (nothing more is
    pulled, whatever the streams would do next). *)
Theorem frames_equal_false_stable `{Generator G0, Generator G1}
    (n m : nat) (g0 : G0) (g1 : G1) (h : heap) g0' g1' h' :
  frames_equal g0 g1 n h = Ret (false, g0', g1', h') →
  n ≤ m →
  frames_equal g0 g1 m h = Ret (false, g0', g1', h').
Proof.
  intros E Hnm. replace m with (n + (m - n)) by lia.
  by rewrite frames_equal_plus, E.
Qed.

Lemma frames_equal_false_stable_witness :
  frames_equal stream_a stream_b 7 two_arrays =
    Ret (false, [(0, [0%Z])], [(0, [0%Z])], two_arrays).
Proof.
  apply (frames_equal_false_stable 1 7 stream_a stream_b two_arrays).
  - reflexivity.
  - lia.
Defined.

(** X3. When the first [n + m] frames match, so do the first [n], and the
    remaining [m] frames match from where those [n] rounds left the
    streams. *)
Theorem frames_equal_true_split `{Generator G0, Generator G1}
    (n m : nat) (g0 : G0) (g1 : G1) (h : heap) g0'' g1'' h'' :
  frames_equal g0 g1 (n + m) h = Ret (true, g0'', g1'', h'') →
  ∃ g0' g1' h',
    frames_equal g0 g1 n h = Ret (true, g0', g1', h') ∧
    frames_equal g0' g1' m h' = Ret (true, g0'', g1'', h'').
Proof.
  rewrite frames_equal_plus.
  destruct (frames_equal g0 g1 n h) as [[[[[|] g0'] g1'] h']| |]; [|done..].
  intros E. by exists g0', g1', h'.
Qed.

Lemma frames_equal_true_split_witness :
  ∃ g0' g1' h',
    frames_equal stream_a stream_a 1 two_arrays = Ret (true, g0', g1', h') ∧
    frames_equal g0' g1' 1 h' = Ret (true, [], [], two_arrays).
Proof.
  apply (frames_equal_true_split 1 1 stream_a stream_a two_arrays).
  reflexivity.
Defined.

(** X4. An exception of a stream comes out of [frames_equal]: when the
    first [i] frames match and the next call of [g0.next()] raises, or it
    yields and the call of [g1.next()] after it raises, [frames_equal]
    raises that exception for every [num_frames] above [i]. *)
Theorem frames_equal_raises `{Generator G0, Generator G1}
    (i n : nat) (g0 : G0) (g1 : G1) (h : heap) g0' g1' h' (e : exn) :
  frames_equal g0 g1 i h = Ret (true, g0', g1', h') →
  (next g0' h' = Raise e ∨
   ∃ f g0'' h'', next g0' h' = Ret (f, g0'', h'') ∧ next g1' h'' = Raise e) →
  i < n →
  frames_equal g0 g1 n h = Raise e.
Proof.
  intros E Hraise Hin. replace n with (i + S (n - i - 1)) by lia.
  rewrite frames_equal_plus, E, frames_equal_S.
  destruct Hraise as [-> | (f & g0'' & h'' & -> & ->)]; done.
Qed.

Lemma frames_equal_raises_witness :
  frames_equal stream_a stream_a 5 two_arrays = Raise StopIteration.
Proof.
  apply (frames_equal_raises 2 5 stream_a stream_a two_arrays [] [] two_arrays).
  - reflexivity.
  - left. reflexivity.
  - lia.
Defined.

Lemma all2_diag {A} (p : A → A → bool) (l : list A) :
  all2 p l l = forallb (λ x, p x x) l.
Proof. induction l as [|x l IH]; simpl; [done|]. by rewrite IH. Qed.

Lemma array_equal_self (a : ndarray) : array_equal a a = nan_free a.
Proof.
  unfold array_equal, nan_free. rewrite all2_diag.
  induction a as [|row a IH]; simpl; [done|]. by rewrite all2_diag, IH.
Qed.

Lemma frame_equal_self (h : heap) (f : Frame) (a : ndarray) :
  h !! f.1 = Some a → frame_equal h f f = nan_free a.
Proof.
  intros Hf. rewrite (frame_equal_lookup _ _ _ _ _ Hf Hf), array_equal_self.
  unfold meta_equal. rewrite bool_decide_eq_true_2 by done. apply andb_true_r.
Qed.

(** X5. [frames_equal] is not reflexive on frames with a NaN. Comparing a
    stream of frames with a second stream of the very same frames returns
    [True] exactly when none of the arrays of the first [num_frames]
    frames holds a NaN (the streams are list iterators with enough frames,
    every frame holding an array of the store). *)
Theorem frames_equal_self_nan (l : list Frame) (n : nat) (h : heap) :
  n ≤ length l →
  (∀ f, f ∈ take n l → is_Some (h !! f.1)) →
  ∃ b l0 l1,
    frames_equal l l n h = Ret (b, l0, l1, h) ∧
    (b = true ↔ ∀ f a, f ∈ take n l → h !! f.1 = Some a → nan_free a = true).
Proof.
  revert l. induction n as [|n IH]; intros l Hlen Hrefs.
  - exists true, l, l. split; [done|]. split; [|done].
    intros _ f a Hf. by apply elem_of_nil in Hf.
  - destruct l as [|f l]; [simpl in Hlen; lia|].
    simpl in Hlen. rewrite firstn_cons in Hrefs |- *.
    destruct (Hrefs f ltac:(by left)) as [a Ha].
    rewrite frames_equal_S.
    unfold next, list_iterator. cbv beta iota.
    rewrite (frame_equal_self _ _ _ Ha).
    destruct (nan_free a) eqn:Hnan.
    + destruct (IH l ltac:(lia)) as (b & l0 & l1 & E & Hb).
      { intros f' Hf'. apply Hrefs. by right. }
      exists b, l0, l1. split; [done|]. rewrite Hb. split.
      * intros Hall f' a' [-> | Hf']%elem_of_cons Ha'; [congruence | eauto].
      * intros Hall f' a' Hf' Ha'. apply (Hall f' a'); [by right | done].
    + exists false, l, l. split; [done|]. split; [done|].
      intros Hall. rewrite (Hall f a) in Hnan; [done | by left | done].
Qed.

Lemma frames_equal_self_nan_witness :
  ∃ b l0 l1,
    frames_equal stream_b stream_b 2 two_arrays = Ret (b, l0, l1, two_arrays) ∧
    (b = true ↔ ∀ f a, f ∈ take 2 stream_b → two_arrays !! f.1 = Some a →
                       nan_free a = true).
Proof.
  apply (frames_equal_self_nan stream_b 2 two_arrays).
  - simpl. lia.
  - intros f Hf. simpl in Hf.
    apply elem_of_cons in Hf as [-> | Hf]; [by exists [[2%float]]|].
    apply elem_of_cons in Hf as [-> | Hf]; [by exists [[1%float]]|].
    by apply elem_of_nil in Hf.
Defined.

(** A frame over an array with a NaN does not compare equal to itself. *)
Example frame_equal_nan :
  frame_equal [[[nan]]] (0, [0%Z]) (0, [0%Z]) = false.
Proof. reflexivity. Qed.

(** * Further properties of the reference generators *)

Lemma div2_S_lt i n : i < n → Nat.div2 i < Nat.div2 (S n).
Proof.
  intros Hi. pose proof (Nat.div2_odd i) as Ei. pose proof (Nat.div2_odd (S n)) as En.
  destruct (Nat.odd i), (Nat.odd (S n)); simpl in *; lia.
Qed.

Section ReferenceStore.
Context `{Imagen}.

Lemma draws_lookup aux rng k j :
  j < k → draws aux rng k !! j = Some (draw aux rng j).
Proof.
  induction k as [|k IH]; intros Hj; [lia|]. rewrite draws_S_r.
  destruct (decide (j = k)) as [-> | Hne].
  - rewrite list_lookup_middle by (by rewrite draws_length). done.
  - rewrite lookup_app_l by (rewrite draws_length; lia). apply IH. lia.
Qed.

Lemma draw_S aux rng k :
  draw aux rng (S k) = draw aux (pattern_call aux rng).2 k.
Proof. reflexivity. Qed.

(** From the end of a [for] loop, [n] frames cost as many calls of the
    pattern generator as images are begun, and each call adds one array
    at the end of the store. *)
Lemma pull_suspended_store aux rng aux2 h n :
  ∃ fs g',
    pull n (Suspended aux rng aux2 1) h =
      Ret (fs, g', h ++ draws aux rng (Nat.div2 (S n))) ∧
    reference_rng g' = Some (rng_after aux rng (Nat.div2 (S n))).
Proof.
  pose proof (Nat.div2_odd n) as En. set (k := Nat.div2 n) in En.
  pose proof (pull_windows aux rng aux2 h k) as Hw.
  destruct (Nat.odd n); simpl in En.
  - assert (Nat.div2 (S n) = S k) as ->.
    { replace (S n) with (2 * S k) by lia. apply Nat.div2_double. }
    rewrite En.
    eexists _, _. split.
    + eapply pull_app; [exact Hw|].
      rewrite pull_S, next_Suspended_1, reference_sample_eq. simpl.
      rewrite <- rng_after_S_r, <- app_assoc. by rewrite <- draws_S_r.
    + done.
  - assert (Nat.div2 (S n) = k) as ->.
    { replace n with (2 * k) by lia. apply Nat.div2_succ_double. }
    replace n with (2 * k) by lia. eexists _, _. split; [exact Hw|done].
Qed.
End ReferenceStore.

(** X6. What frames cost: the first [n] frames of a reference generator
    take [(n + 1) / 2] calls of the pattern generator (one per image
    begun), each drawing once from the random state, and the store after
    them is the store before them with the drawn arrays added at its end,
    in order; no array that was in the store is changed or removed. *)
Theorem reference_frames_store `{Imagen}
    (self : tester) (v : variant) (p : test_params) (aux : pattern) (n : nat) (h : heap)
    fs g' h' :
  reference_pattern v p = Ret aux →
  pull n (reference_frames self v p) h = Ret (fs, g', h') →
  let seed := RandomState_seed (experiment_seed self) in
  h' = h ++ draws aux seed (Nat.div2 (S n)) ∧
  (0 < n → reference_rng g' = Some (rng_after aux seed (Nat.div2 (S n)))).
Proof.
  intros Ep E seed. destruct n as [|n].
  - inversion E; subst. simpl. split; [by rewrite app_nil_r | lia].
  - unfold reference_frames in E. rewrite (pull_Created _ _ _ _ _ _ Ep) in E.
    destruct (pull_suspended_store aux seed 0 h (S n)) as (fs1 & g1 & E1 & Hrng).
    fold seed in E. rewrite E1 in E. inversion E; subst. done.
Qed.

Lemma reference_frames_store_witness :
  ∃ fs g' h',
    pull (G := reference_frames_state (H := lcg_imagen)) 5
      (reference_frames TestNoise Dense default_params) [] = Ret (fs, g', h') ∧
    h' = [] ++ draws (DenseNoisePattern (PyFloat 1) (PyInt 0) (PyFloat 100) (PyFloat 5.5)
                        (PyFloat 10) (PyFloat 10)) (RandomState_seed 0) (Nat.div2 6) ∧
    (0 < 5 → reference_rng g' =
       Some (rng_after (DenseNoisePattern (PyFloat 1) (PyInt 0) (PyFloat 100) (PyFloat 5.5)
                          (PyFloat 10) (PyFloat 10)) (RandomState_seed 0) (Nat.div2 6))).
Proof.
  eexists _, _, _. split; [reflexivity|].
  eapply (reference_frames_store (H := lcg_imagen) TestNoise Dense default_params
            (DenseNoisePattern (PyFloat 1) (PyInt 0) (PyFloat 100) (PyFloat 5.5)
               (PyFloat 10) (PyFloat 10)) 5 []); reflexivity.
Defined.

(** X7. What frames show: frame [i] of a reference generator (from zero)
    carries the array of draw number [i / 2] of the pattern generator,
    in the array object created [i / 2]-th by the generator. *)
Theorem reference_frames_contents `{Imagen}
    (self : tester) (v : variant) (p : test_params) (aux : pattern) (n : nat) (h : heap)
    fs g' h' :
  reference_pattern v p = Ret aux →
  pull n (reference_frames self v p) h = Ret (fs, g', h') →
  ∀ i f, fs !! i = Some f →
    f = (length h + Nat.div2 i, [0%Z]) ∧
    h' !! f.1 = Some (draw aux (RandomState_seed (experiment_seed self)) (Nat.div2 i)).
Proof.
  intros Ep E i f Hf.
  destruct (pull_reference_frames self v p aux h n Ep) as (g1 & h1 & E1).
  rewrite E1 in E. inversion E; subst; clear E.
  apply lookup_take_Some in Hf as [Hf Hi].
  rewrite windows_lookup_div2 in Hf by lia. inversion Hf; subst; clear Hf.
  split; [done|]. simpl.
  assert (h' = h ++ draws aux (RandomState_seed (experiment_seed self)) (Nat.div2 (S n)))
    as ->.
  { destruct n as [|n]; [lia|].
    unfold reference_frames in E1. rewrite (pull_Created _ _ _ _ _ _ Ep) in E1.
    destruct (pull_suspended_store aux (RandomState_seed (experiment_seed self)) 0 h (S n))
      as (fs2 & g2 & E2 & _).
    rewrite E2 in E1. by inversion E1. }
  etrans; [apply (lookup_app_r h); apply Nat.le_add_r|].
  replace (length h + Nat.div2 i - length h) with (Nat.div2 i)
    by (generalize (Nat.div2 i) (length h); intros; lia).
  apply draws_lookup. by apply div2_S_lt.
Qed.

Lemma reference_frames_contents_witness :
  ∃ fs g' h',
    pull (G := reference_frames_state (H := lcg_imagen)) 3
      (reference_frames TestNoise Sparse sparse_noise_params_0) [] = Ret (fs, g', h') ∧
    ∀ i f, fs !! i = Some f →
      f = (length ([] : heap) + Nat.div2 i, [0%Z]) ∧
      h' !! f.1 =
        Some (draw
              (SparseNoisePattern (PyFloat 1) true (PyInt 0) (PyInt 100) (PyInt 5)
                 (PyFloat 5) (PyFloat 5)) (RandomState_seed 0) (Nat.div2 i)).
Proof.
  eexists _, _, _. split; [reflexivity|].
  eapply (reference_frames_contents (H := lcg_imagen) TestNoise Sparse sparse_noise_params_0
            (SparseNoisePattern (PyFloat 1) true (PyInt 0) (PyInt 100) (PyInt 5)
                 (PyFloat 5) (PyFloat 5)) 3 []); reflexivity.
Defined.

Section ReferenceInHarness.
Context `{Imagen, Generator G1}.
Variable aux : pattern.
Hypothesis next_appends : ∀ (g : G1) h f g' h',
  next g h = Ret (f, g', h') → ∃ ext, h' = h ++ ext.

(** A reference generator in the rounds of the harness, next to a stream
    that only adds arrays to the store: what its frames show, from the
    end of a [for] loop and from its first iteration. *)
Lemma lockstep_reference_contents n :
  (∀ rng aux2 i (g1 : G1) h rs s g1' h',
     1 ≤ i →
     lockstep n (Suspended aux rng aux2 i) g1 h = Ret (rs, s, g1', h') →
     ∀ j (rd : round), rs !! j = Some rd →
       rd.2 !! rd.1.1.1 = Some (draw aux rng (Nat.div2 j))) ∧
  (∀ rng aux2 a (g1 : G1) h rs s g1' h',
     h !! aux2 = Some a →
     lockstep n (Suspended aux rng aux2 0) g1 h = Ret (rs, s, g1', h') →
     ∀ j (rd : round), rs !! j = Some rd →
       rd.2 !! rd.1.1.1 =
         Some (match j with O => a | S j => draw aux rng (Nat.div2 j) end)).
Proof.
  induction n as [|n [IH1 IH0]].
  - split; intros * ? E j rd Hj; inversion E; subst; done.
  - split.
    + intros rng aux2 i g1 h rs s g1' h' Hi E j rd Hj.
      rewrite lockstep_S, next_Suspended_ge, reference_sample_eq in E by done.
      cbv beta iota in E.
      destruct (next g1 (h ++ [(pattern_call aux rng).1])) as [[[f1 g1a] hb]| |] eqn:N1;
        [|done..].
      destruct (next_appends _ _ _ _ _ N1) as [ext ->].
      destruct (lockstep n _ g1a _) as [[[[rs1 sa] g1b] hc]| |] eqn:E1; [|done..].
      inversion E; subst; clear E.
      assert (((h ++ [(pattern_call aux rng).1]) ++ ext) !! length h
              = Some (pattern_call aux rng).1) as Hnew.
      { rewrite lookup_app_l by (rewrite length_app; simpl; lia).
        by rewrite list_lookup_middle. }
      destruct j as [|j].
      * inversion Hj; subst. done.
      * pose proof (IH0 _ _ _ _ _ _ _ _ _ Hnew E1 j rd Hj) as Hc. rewrite Hc.
        destruct j as [|j]; [done|]. by rewrite <- draw_S.
    + intros rng aux2 a g1 h rs s g1' h' Ha E j rd Hj.
      rewrite lockstep_S, next_Suspended_0 in E.
      destruct (next g1 h) as [[[f1 g1a] hb]| |] eqn:N1; [|done..].
      destruct (next_appends _ _ _ _ _ N1) as [ext ->].
      destruct (lockstep n _ g1a _) as [[[[rs1 sa] g1b] hc]| |] eqn:E1; [|done..].
      inversion E; subst; clear E.
      destruct j as [|j].
      * inversion Hj; subst. cbn [fst snd].
        etrans; [apply (lookup_app_l h); by eapply lookup_lt_Some | done].
      * by apply (IH1 _ _ _ _ _ _ _ _ _ (le_n 1) E1 j rd Hj).
Qed.
End ReferenceInHarness.

(** X8. The other stream does not disturb a reference generator. In the
    rounds of the harness, next to any stream whose calls only add arrays
    to the store, the frame of the reference generator in round [j] shows
    draw number [j / 2] of its pattern generator when it is compared, as
    it does when the generator is pulled alone. *)
Theorem reference_frames_undisturbed `{Imagen, Generator G1}
    (self : tester) (v : variant) (p : test_params) (aux : pattern)
    (n : nat) (g1 : G1) (h : heap) rs g0' g1' h' :
  (∀ (g : G1) h f g' h', next g h = Ret (f, g', h') → ∃ ext, h' = h ++ ext) →
  reference_pattern v p = Ret aux →
  lockstep n (reference_frames self v p) g1 h = Ret (rs, g0', g1', h') →
  ∀ j (rd : round), rs !! j = Some rd →
    rd.2 !! rd.1.1.1 =
      Some (draw aux (RandomState_seed (experiment_seed self)) (Nat.div2 j)).
Proof.
  intros Happ Ep E j rd Hj. destruct n as [|n].
  - inversion E; subst. done.
  - assert (lockstep (S n) (Suspended aux (RandomState_seed (experiment_seed self)) 0 1)
              g1 h = Ret (rs, g0', g1', h')) as E'.
    { rewrite lockstep_S, next_Suspended_1.
      unfold reference_frames in E. rewrite lockstep_S, next_Created, Ep in E.
      exact E. }
    destruct (lockstep_reference_contents aux Happ (S n)) as [H1 _].
    by apply (H1 _ _ _ _ _ _ _ _ _ (le_n 1) E' j rd Hj).
Qed.

Lemma reference_frames_undisturbed_witness :
  ∃ rs g0' g1' h',
    lockstep (G0 := reference_frames_state (H := lcg_imagen)) 2
      (reference_frames TestNoise Sparse sparse_noise_params_0) stream_a two_arrays =
      Ret (rs, g0', g1', h') ∧
    ∀ j (rd : round), rs !! j = Some rd →
      rd.2 !! rd.1.1.1 =
        Some (draw (SparseNoisePattern (PyFloat 1) true (PyInt 0) (PyInt 100) (PyInt 5)
                      (PyFloat 5) (PyFloat 5)) (RandomState_seed 0) (Nat.div2 j)).
Proof.
  eexists _, _, _, _. split; [reflexivity|].
  eapply (reference_frames_undisturbed (H := lcg_imagen) TestNoise Sparse
            sparse_noise_params_0
            (SparseNoisePattern (PyFloat 1) true (PyInt 0) (PyInt 100) (PyInt 5)
               (PyFloat 5) (PyFloat 5)) 2 stream_a two_arrays).
  - intros g h f g' h' E. exists []. destruct g; [discriminate|].
    inversion E; subst. by rewrite app_nil_r.
  - reflexivity.
  - reflexivity.
Defined.

(** X9. A zero [size_x] shows at the first frame, not before: making the
    reference generator runs none of its body, and its first [next]
    raises [ZeroDivisionError] from [grid_size * 1.0 / size_x], for an
    [int] or a [float] zero (of either sign) and any [grid_size] that
    converts to a float; so does [frames_equal] on it, for any other
    stream and any positive number of frames, before the other stream is
    asked for a frame. *)
Theorem reference_frames_zero_size `{Imagen, Generator G1}
    (self : tester) (v : variant) (p : test_params) (gf : float)
    (g1 : G1) (n : nat) (h : heap) :
  py_float (grid_size p) = Ret gf →
  (size_x p = PyInt 0 ∨ ∃ f, size_x p = PyFloat f ∧ (f =? 0)%float = true) →
  next (reference_frames self v p) h = Raise ZeroDivisionError ∧
  frames_equal (reference_frames self v p) g1 (S n) h = Raise ZeroDivisionError.
Proof.
  intros Hg Hx.
  assert (reference_pattern v p = Raise ZeroDivisionError) as Ep.
  { unfold reference_pattern.
    assert (py_mul (grid_size p) (PyFloat 1) = Ret (PyFloat (gf * 1)%float)) as ->.
    { unfold py_mul. destruct (grid_size p); by rewrite Hg. }
    unbind. destruct Hx as [-> | (f & -> & Hf)].
    - reflexivity.
    - unfold py_div, py_float. unbind. by rewrite Hf. }
  assert (next (reference_frames self v p) h = Raise ZeroDivisionError) as En.
  { unfold reference_frames. by rewrite next_Created, Ep. }
  split; [done|]. by rewrite frames_equal_S, En.
Qed.

Lemma reference_frames_zero_size_witness :
  next (Generator := reference_frames_next (H := lcg_imagen))
    (reference_frames TestNoise Sparse
       {| grid_size := PyInt 11; size_x := PyFloat (-0); grid := false;
          background_luminance := PyFloat 50; density := PyFloat 10 |}) []
    = Raise ZeroDivisionError ∧
  frames_equal
    (reference_frames (H := lcg_imagen) TestNoise Sparse
       {| grid_size := PyInt 11; size_x := PyFloat (-0); grid := false;
          background_luminance := PyFloat 50; density := PyFloat 10 |})
    stream_a 3 [] = Raise ZeroDivisionError.
Proof.
  apply (reference_frames_zero_size (H := lcg_imagen) TestNoise Sparse
           {| grid_size := PyInt 11; size_x := PyFloat (-0); grid := false;
              background_luminance := PyFloat 50; density := PyFloat 10 |}
           11%float stream_a 2 []).
  - reflexivity.
  - right. exists (-0)%float. split; reflexivity.
Defined.
